(** * SmartTaskPlanner: task synchronisation and mutation-retry layer

    A shallow embedding of the React component [App] of the task planner
    (the module that imports firebase and axios) and of its helper
    [withRetry], together with the properties of the retry executor, the
    ordering of a snapshot, the task mutations and the AI suggestion
    workflow.

    Conventions of the embedding.
    - A JavaScript number that the code only uses as an integer (the retry
      budget, the loop index, a delay or a timestamp in milliseconds) is
      a [Z].
    - A JavaScript string is a [string]; its characters stand for code
      units below 256.
    - An [async] function is a state-passing function on the world it can
      observe and change; a rejected promise or a [throw] is the outcome
      [Thrown], a fulfilled one is [Returned].  A handler runs to completion:
      the suspension points of [await] are not interleaved with other
      handlers. *)

From Stdlib Require Import ZArith List String Ascii Bool Lia.
From Stdlib Require Import Sorting.Sorted Sorting.Permutation.
From stdpp Require Import base list.

Import ListNotations.
Set Warnings "-register-all".
Local Open Scope string_scope.
Local Open Scope list_scope.

(** ** Outcomes of fallible computations *)

Inductive outcome (E A : Type) : Type :=
| Returned (v : A)
| Thrown (error : E).

Arguments Returned {E A} v.
Arguments Thrown {E A} error.

(** A computation over a world [W] that returns an [A] or throws an [E]. *)
Definition M (W E A : Type) : Type := W -> outcome E A * W.

Definition ret {W E A} (v : A) : M W E A := fun w => (Returned v, w).

Definition throw {W E A} (e : E) : M W E A := fun w => (Thrown e, w).

Definition bind {W E A B} (m : M W E A) (k : A -> M W E B) : M W E B :=
  fun w =>
    match m w with
    | (Returned v, w1) => k v w1
    | (Thrown e, w1) => (Thrown e, w1)
    end.

(** [try { body } catch (error) { handler error }] *)
Definition try_catch {W E A} (body : M W E A) (handler : E -> M W E A)
  : M W E A :=
  fun w =>
    match body w with
    | (Returned v, w1) => (Returned v, w1)
    | (Thrown e, w1) => handler e w1
    end.

(** [try { body } finally { cleanup }], for a [cleanup] that does not throw. *)
Definition try_finally {W E A} (body : M W E A) (cleanup : W -> W)
  : M W E A :=
  fun w => let '(r, w1) := body w in (r, cleanup w1).

(** A statement that only changes the world. *)
Definition exec {W E} (f : W -> W) : M W E unit := fun w => (Returned tt, f w).

Declare Scope js_scope.
Delimit Scope js_scope with js.
Notation "x <- m ;; k" := (bind m (fun x => k))
  (at level 100, m at next level, right associativity) : js_scope.
Notation "m ;; k" := (bind m (fun _ => k))
  (at level 100, right associativity) : js_scope.

(** ** RetryExecutor: [withRetry] *)

Module Retry.

(** What the executor does that can be observed: it invokes the operation,
    and it waits. *)
Inductive event : Type :=
| Attempt
| Wait (ms : Z).

Definition is_attempt (ev : event) : bool :=
  match ev with Attempt => true | Wait _ => false end.

Definition attempts (tr : list event) : nat :=
  length (List.filter is_attempt tr).

Fixpoint waits (tr : list event) : list Z :=
  match tr with
  | [] => []
  | Attempt :: tr' => waits tr'
  | Wait ms :: tr' => ms :: waits tr'
  end.

(** The wait the specification asks for after the failed attempt number
    [attempt] (from 0): [2^attempt * 1000] milliseconds. *)
Definition backoff (attempt : nat) : Z := (2 ^ Z.of_nat attempt * 1000)%Z.

(** The run the specification describes for [k] attempts made from attempt
    number [i]: an attempt, and before every further attempt the wait
    [backoff] of the attempt that failed. *)
Fixpoint schedule_from (i k : nat) : list event :=
  match k with
  | O => []
  | S k' =>
      Attempt ::
      match k' with
      | O => []
      | S _ => Wait (backoff i) :: schedule_from (S i) k'
      end
  end.

Definition schedule (k : nat) : list event := schedule_from 0 k.

(** What has happened when the attempt number [j] starts: [j] failed
    attempts, each followed by its wait. *)
Fixpoint preamble (j : nat) : list event :=
  match j with
  | O => []
  | S j' => preamble j' ++ [Attempt; Wait (backoff j')]
  end.

Section WithRetry.
Context {W E A : Type}.

(** [await new Promise(resolve => setTimeout(resolve, delay))]: what
    waiting [delay] milliseconds does to the world. *)
Variable setTimeout : Z -> W -> W.

(** The zero-argument asynchronous operation [fn]. *)
Variable fn : M W E A.

(** The loop [for (let i = 0; i < retries; i++) { ... }], from index [i].
    [rem] is the number of iterations left, [retries - i]; when it is
    [0] the test [i < retries] fails, the loop is left and the function
    returns [undefined], here [None].  [delay] is the number handed to
    [setTimeout]: [Math.pow(2, i) * 1000], an exact integer for the first
    thousand attempts. *)
Fixpoint retry_loop (rem : nat) (i retries : Z) : M W E (option A) :=
  fun w =>
    match rem with
    | O => (Returned None, w)
    | S rem' =>
        if (i <? retries)%Z then
          match fn w with
          | (Returned v, w1) => (Returned (Some v), w1)
          | (Thrown error, w1) =>
              if (i =? retries - 1)%Z then (Thrown error, w1)
              else
                let delay := (2 ^ i * 1000)%Z in
                retry_loop rem' (i + 1) retries (setTimeout delay w1)
          end
        else (Returned None, w)
    end.

Definition withRetry (retries : Z) : M W E (option A) :=
  retry_loop (Z.to_nat retries) 0 retries.

(** How the executor settles when the attempt that ended as [o] is its
    last one: [return await fn()] passes the value on as it is, and the
    [throw error] of the last iteration passes the error on. *)
Definition settled (o : outcome E A) : outcome E (option A) :=
  match o with
  | Returned v => Returned (Some v)
  | Thrown error => Thrown error
  end.

(** The world after the events [tr]: an attempt is one invocation of the
    operation, a wait is one timer. *)
Definition happen (w : W) (ev : event) : W :=
  match ev with
  | Attempt => snd (fn w)
  | Wait ms => setTimeout ms w
  end.

Definition run_trace (tr : list event) (w : W) : W := fold_left happen tr w.

(** How the attempt number [j] (from 0) of a run started in [w] ends, the
    earlier attempts having failed. *)
Definition outcome_at (w : W) (j : nat) : outcome E A :=
  fst (fn (run_trace (preamble j) w)).

End WithRetry.

(** [retries = 3], the default of the second parameter. *)
Definition default_retries : Z := 3.

(** *** An observed run

    To count attempts and waits, the executor is run in a world that is the
    list of what happened so far, on an operation given by the outcome of
    each of its successive invocations: [op k] is what the invocation
    number [k] (from 0) produces. *)

Section Observed.
Context {E A : Type}.
Variable op : nat -> outcome E A.

Definition observed_fn : M (list event) E A :=
  fun tr => (op (attempts tr), tr ++ [Attempt]).

Definition observed_wait (ms : Z) (tr : list event) : list event :=
  tr ++ [Wait ms].

Definition execute (retries : Z) : outcome E (option A) * list event :=
  withRetry observed_wait observed_fn retries [].
End Observed.

End Retry.

(** ** JavaScript values and strings *)

Module Js.

(** The values a parsed JSON body or an absent property can be.  A number
    is kept as an integer: the code only tests numbers for truthiness.  The
    properties of an object are listed once each. *)
Inductive jsval : Type :=
| JUndefined
| JNull
| JBool (b : bool)
| JNum (n : Z)
| JStr (s : string)
| JArr (items : list jsval)
| JObj (props : list (string * jsval)).

(** [ToBoolean]: what [v && ...], [v || ...] and [!v] test. *)
Definition truthy (v : jsval) : bool :=
  match v with
  | JUndefined | JNull => false
  | JBool b => b
  | JNum n => negb (n =? 0)%Z
  | JStr s => negb (s =? "")
  | JArr _ | JObj _ => true
  end.

Fixpoint lookup_prop (key : string) (props : list (string * jsval)) : jsval :=
  match props with
  | [] => JUndefined
  | (k, v) :: rest => if k =? key then v else lookup_prop key rest
  end.

(** [v.key] for a [v] that is neither [null] nor [undefined], and a [key]
    that no primitive or array carries ([data], [tasks], [error]). *)
Definition get_prop (v : jsval) (key : string) : jsval :=
  match v with
  | JObj props => lookup_prop key props
  | _ => JUndefined
  end.

(** [v?.key] *)
Definition opt_prop (v : jsval) (key : string) : jsval :=
  match v with
  | JUndefined | JNull => JUndefined
  | _ => get_prop v key
  end.

(** [a || b] *)
Definition js_or (a b : jsval) : jsval := if truthy a then a else b.

(** [Array.isArray(v)] *)
Definition isArray (v : jsval) : bool :=
  match v with JArr _ => true | _ => false end.

(** [t === s] for a string [s]: strict equality with a string holds for an
    equal string only. *)
Definition strict_eq_string (t : jsval) (s : string) : bool :=
  match t with
  | JStr u => u =? s
  | _ => false
  end.

(** White space and line terminators among the code units below 256:
    TAB, LF, VT, FF, CR, SP and NBSP. *)
Definition is_white_space (c : ascii) : bool :=
  let n := nat_of_ascii c in
  ((9 <=? n)%nat && (n <=? 13)%nat) || (n =? 32)%nat || (n =? 160)%nat.

Fixpoint trimStart (s : string) : string :=
  match s with
  | EmptyString => EmptyString
  | String c rest => if is_white_space c then trimStart rest else s
  end.

Fixpoint trimEnd (s : string) : string :=
  match s with
  | EmptyString => EmptyString
  | String c rest =>
      match trimEnd rest with
      | EmptyString => if is_white_space c then EmptyString else String c EmptyString
      | kept => String c kept
      end
  end.

(** [s.trim()] *)
Definition trim (s : string) : string := trimEnd (trimStart s).

(** What a rejected promise carries: [error.message] and, for an HTTP
    error reported by axios, [error.response] ([JUndefined] without one). *)
Record js_error : Type := {
  message : string;
  response : jsval
}.

End Js.

(** ** OrderingPolicy: the comparator of the snapshot listener *)

Module Ordering.

(** A task as the listener builds it: [{ id: doc.id, ...doc.data() }].
    [createdAt] is [None] while the server timestamp is not resolved (the
    field is [null]); otherwise it holds [createdAt.toMillis()]. *)
Record Task : Type := {
  id : string;
  text : string;
  completed : bool;
  createdAt : option Z
}.

(** [x || 0] on a number or [undefined]. *)
Definition or_zero (x : option Z) : Z :=
  match x with
  | Some n => if (n =? 0)%Z then 0%Z else n
  | None => 0%Z
  end.

(** [t.createdAt?.toMillis() || 0] *)
Definition timeOf (t : Task) : Z := or_zero (createdAt t).

(** The function passed to [fetchedTasks.sort]. *)
Definition compareTasks (a b : Task) : Z :=
  if negb (Bool.eqb (completed a) (completed b)) then
    (if completed a then 1 else -1)%Z
  else
    let timeA := timeOf a in
    let timeB := timeOf b in
    (timeB - timeA)%Z.

(** [Array.prototype.sort] with a comparator.  The language requires the
    sort to be stable, and for a consistent comparator (see
    [compareTasks_consistent]) that fixes the result: the elements in
    non-decreasing order, equal ones in their input order.  It is computed
    here by insertion from the right, which yields this result (see
    [sort_Permutation], [sort_StronglySorted] and [sort_stable]). *)
Section Sort.
Context {A : Type}.
Variable compareFn : A -> A -> Z.

Fixpoint insert (x : A) (l : list A) : list A :=
  match l with
  | [] => [x]
  | y :: rest =>
      if (compareFn x y <=? 0)%Z then x :: l else y :: insert x rest
  end.

Fixpoint sort (l : list A) : list A :=
  match l with
  | [] => []
  | x :: rest => insert x (sort rest)
  end.

(** The comparator does not put [x] after [y]. *)
Definition in_order (x y : A) : Prop := (compareFn x y <= 0)%Z.
End Sort.

(** The ordering the listener applies to every snapshot. *)
Definition sortTasks (fetchedTasks : list Task) : list Task :=
  sort compareTasks fetchedTasks.

(** "[a] may stand before [b]": the comparator does not put [a] after [b]. *)
Definition precedes (a b : Task) : Prop := in_order compareTasks a b.

(** [a] and [b] belong to the same completion group. *)
Definition same_group (a b : Task) : Prop := completed a = completed b.

(** A resolved timestamp is a server time in milliseconds since the epoch,
    hence not negative. *)
Definition server_assigned (t : Task) : Prop :=
  forall ms, createdAt t = Some ms -> (0 <= ms)%Z.

(** A task with its unresolved timestamp replaced by time zero. *)
Definition resolved_as_zero (t : Task) : Task :=
  {| id := id t; text := text t; completed := completed t;
     createdAt := match createdAt t with
                  | Some ms => Some ms
                  | None => Some 0%Z
                  end |}.

(** A task whose timestamp is not resolved yet. *)
Definition task_u : Task :=
  {| id := "u"; text := ""; completed := false; createdAt := None |}.

(** The snapshot of the specification's scenario. *)
Definition task_a : Task :=
  {| id := "a"; text := ""; completed := false; createdAt := Some 10%Z |}.
Definition task_b : Task :=
  {| id := "b"; text := ""; completed := true; createdAt := Some 20%Z |}.
Definition task_c : Task :=
  {| id := "c"; text := ""; completed := false; createdAt := Some 30%Z |}.

(** A task created at the epoch, and one whose document carries a
    timestamp before the epoch. *)
Definition task_z : Task :=
  {| id := "z"; text := ""; completed := false; createdAt := Some 0%Z |}.
Definition task_n : Task :=
  {| id := "n"; text := ""; completed := false; createdAt := Some (-5)%Z |}.

End Ordering.

(** ** The component [App]: state, effects and handlers *)

Module App.

Import Js Ordering.

(** The handles [getFirestore(app)] and [getAuth(app)] return. *)
Inductive Firestore : Type := FirestoreHandle.
Inductive Auth : Type := AuthHandle.

(** The [useState] cells of the component. *)
Record AppState : Type := {
  db : option Firestore;
  auth : option Auth;
  userId : option string;
  isAuthReady : bool;
  tasks : list Task;
  newTaskText : string;
  loading : bool;
  aiPrompt : string;
  isGenerating : bool;
  generationError : jsval;
  aiSuggestions : list jsval;
  showAiModal : bool;
  errorMessage : string
}.

(** The initial values given to [useState]. *)
Definition initialState : AppState :=
  {| db := None; auth := None; userId := None; isAuthReady := false;
     tasks := []; newTaskText := ""; loading := true; aiPrompt := "";
     isGenerating := false; generationError := JNull; aiSuggestions := [];
     showAiModal := false; errorMessage := "" |}.

(** The state setters. *)
Definition setDb (v : option Firestore) (st : AppState) : AppState :=
  {| db := v;
     auth := auth st;
     userId := userId st;
     isAuthReady := isAuthReady st;
     tasks := tasks st;
     newTaskText := newTaskText st;
     loading := loading st;
     aiPrompt := aiPrompt st;
     isGenerating := isGenerating st;
     generationError := generationError st;
     aiSuggestions := aiSuggestions st;
     showAiModal := showAiModal st;
     errorMessage := errorMessage st |}.

Definition setAuth (v : option Auth) (st : AppState) : AppState :=
  {| db := db st;
     auth := v;
     userId := userId st;
     isAuthReady := isAuthReady st;
     tasks := tasks st;
     newTaskText := newTaskText st;
     loading := loading st;
     aiPrompt := aiPrompt st;
     isGenerating := isGenerating st;
     generationError := generationError st;
     aiSuggestions := aiSuggestions st;
     showAiModal := showAiModal st;
     errorMessage := errorMessage st |}.

Definition setUserId (v : option string) (st : AppState) : AppState :=
  {| db := db st;
     auth := auth st;
     userId := v;
     isAuthReady := isAuthReady st;
     tasks := tasks st;
     newTaskText := newTaskText st;
     loading := loading st;
     aiPrompt := aiPrompt st;
     isGenerating := isGenerating st;
     generationError := generationError st;
     aiSuggestions := aiSuggestions st;
     showAiModal := showAiModal st;
     errorMessage := errorMessage st |}.

Definition setIsAuthReady (v : bool) (st : AppState) : AppState :=
  {| db := db st;
     auth := auth st;
     userId := userId st;
     isAuthReady := v;
     tasks := tasks st;
     newTaskText := newTaskText st;
     loading := loading st;
     aiPrompt := aiPrompt st;
     isGenerating := isGenerating st;
     generationError := generationError st;
     aiSuggestions := aiSuggestions st;
     showAiModal := showAiModal st;
     errorMessage := errorMessage st |}.

Definition setTasks (v : list Task) (st : AppState) : AppState :=
  {| db := db st;
     auth := auth st;
     userId := userId st;
     isAuthReady := isAuthReady st;
     tasks := v;
     newTaskText := newTaskText st;
     loading := loading st;
     aiPrompt := aiPrompt st;
     isGenerating := isGenerating st;
     generationError := generationError st;
     aiSuggestions := aiSuggestions st;
     showAiModal := showAiModal st;
     errorMessage := errorMessage st |}.

Definition setNewTaskText (v : string) (st : AppState) : AppState :=
  {| db := db st;
     auth := auth st;
     userId := userId st;
     isAuthReady := isAuthReady st;
     tasks := tasks st;
     newTaskText := v;
     loading := loading st;
     aiPrompt := aiPrompt st;
     isGenerating := isGenerating st;
     generationError := generationError st;
     aiSuggestions := aiSuggestions st;
     showAiModal := showAiModal st;
     errorMessage := errorMessage st |}.

Definition setLoading (v : bool) (st : AppState) : AppState :=
  {| db := db st;
     auth := auth st;
     userId := userId st;
     isAuthReady := isAuthReady st;
     tasks := tasks st;
     newTaskText := newTaskText st;
     loading := v;
     aiPrompt := aiPrompt st;
     isGenerating := isGenerating st;
     generationError := generationError st;
     aiSuggestions := aiSuggestions st;
     showAiModal := showAiModal st;
     errorMessage := errorMessage st |}.

Definition setAiPrompt (v : string) (st : AppState) : AppState :=
  {| db := db st;
     auth := auth st;
     userId := userId st;
     isAuthReady := isAuthReady st;
     tasks := tasks st;
     newTaskText := newTaskText st;
     loading := loading st;
     aiPrompt := v;
     isGenerating := isGenerating st;
     generationError := generationError st;
     aiSuggestions := aiSuggestions st;
     showAiModal := showAiModal st;
     errorMessage := errorMessage st |}.

Definition setIsGenerating (v : bool) (st : AppState) : AppState :=
  {| db := db st;
     auth := auth st;
     userId := userId st;
     isAuthReady := isAuthReady st;
     tasks := tasks st;
     newTaskText := newTaskText st;
     loading := loading st;
     aiPrompt := aiPrompt st;
     isGenerating := v;
     generationError := generationError st;
     aiSuggestions := aiSuggestions st;
     showAiModal := showAiModal st;
     errorMessage := errorMessage st |}.

Definition setGenerationError (v : jsval) (st : AppState) : AppState :=
  {| db := db st;
     auth := auth st;
     userId := userId st;
     isAuthReady := isAuthReady st;
     tasks := tasks st;
     newTaskText := newTaskText st;
     loading := loading st;
     aiPrompt := aiPrompt st;
     isGenerating := isGenerating st;
     generationError := v;
     aiSuggestions := aiSuggestions st;
     showAiModal := showAiModal st;
     errorMessage := errorMessage st |}.

Definition setAiSuggestions (v : list jsval) (st : AppState) : AppState :=
  {| db := db st;
     auth := auth st;
     userId := userId st;
     isAuthReady := isAuthReady st;
     tasks := tasks st;
     newTaskText := newTaskText st;
     loading := loading st;
     aiPrompt := aiPrompt st;
     isGenerating := isGenerating st;
     generationError := generationError st;
     aiSuggestions := v;
     showAiModal := showAiModal st;
     errorMessage := errorMessage st |}.

Definition setShowAiModal (v : bool) (st : AppState) : AppState :=
  {| db := db st;
     auth := auth st;
     userId := userId st;
     isAuthReady := isAuthReady st;
     tasks := tasks st;
     newTaskText := newTaskText st;
     loading := loading st;
     aiPrompt := aiPrompt st;
     isGenerating := isGenerating st;
     generationError := generationError st;
     aiSuggestions := aiSuggestions st;
     showAiModal := v;
     errorMessage := errorMessage st |}.

Definition setErrorMessage (v : string) (st : AppState) : AppState :=
  {| db := db st;
     auth := auth st;
     userId := userId st;
     isAuthReady := isAuthReady st;
     tasks := tasks st;
     newTaskText := newTaskText st;
     loading := loading st;
     aiPrompt := aiPrompt st;
     isGenerating := isGenerating st;
     generationError := generationError st;
     aiSuggestions := aiSuggestions st;
     showAiModal := showAiModal st;
     errorMessage := v |}.

(** A request sent to a remote collaborator.  [AddDoc] also carries
    [createdAt: serverTimestamp()], which the server fills in. *)
Inductive RemoteCall : Type :=
| AddDoc (path : string) (taskText : string) (taskCompleted : bool)
| UpdateDoc (path : string) (taskCompleted : bool)
| DeleteDoc (path : string)
| AxiosPost (url : string) (prompt : string).

(** What a handler can observe and change: the component state, the
    requests sent so far, the delays waited so far and the labels written
    with [console.error]. *)
Record World : Type := {
  app : AppState;
  remote : list RemoteCall;
  timers : list Z;
  console : list string
}.

Definition initialWorld : World :=
  {| app := initialState; remote := []; timers := []; console := [] |}.

Definition setState (f : AppState -> AppState) (w : World) : World :=
  {| app := f (app w); remote := remote w; timers := timers w;
     console := console w |}.

Definition send (c : RemoteCall) (w : World) : World :=
  {| app := app w; remote := remote w ++ [c]; timers := timers w;
     console := console w |}.

Definition setTimeout (delay : Z) (w : World) : World :=
  {| app := app w; remote := remote w; timers := timers w ++ [delay];
     console := console w |}.

Definition console_error (label : string) (w : World) : World :=
  {| app := app w; remote := remote w; timers := timers w;
     console := console w ++ [label] |}.

(** A document of a snapshot: [doc.id] and the fields of [doc.data()]. *)
Record Doc : Type := {
  doc_id : string;
  doc_text : string;
  doc_completed : bool;
  doc_createdAt : option Z
}.

(** [{ id: doc.id, ...doc.data() }] *)
Definition fetchedTask (doc : Doc) : Task :=
  {| id := doc_id doc; text := doc_text doc; completed := doc_completed doc;
     createdAt := doc_createdAt doc |}.

(** [!userId]: no principal is bound. *)
Definition no_user (u : option string) : bool :=
  match u with
  | None => true
  | Some uid => uid =? ""
  end.

(** [!db] *)
Definition no_db (d : option Firestore) : bool :=
  match d with
  | None => true
  | Some _ => false
  end.

(** [`${userId}`] inside a template literal. *)
Definition template (u : option string) : string :=
  match u with
  | None => "null"
  | Some uid => uid
  end.

(** The elements of an array value. *)
Definition array_items (v : jsval) : list jsval :=
  match v with
  | JArr items => items
  | _ => []
  end.

(** Reading a property of [undefined]. *)
Definition typeError : js_error :=
  {| message := "Cannot read properties of undefined"; response := JUndefined |}.

Definition unexpected_format : string := "AI returned an unexpected format.".

Definition cannot_connect : string :=
  "Failed to connect to the AI service. Check your backend and API key.".

(** [error.response?.data?.error || '...']: what the [catch] block of the
    generation stores for [error]. *)
Definition reported_error (error : js_error) : jsval :=
  js_or (opt_prop (opt_prop (response error) "data") "error")
        (JStr cannot_connect).

Definition could_not_add : string := "Could not add task. Please try again.".

Section Handlers.
(** The globals [appId] and [API_URL]. *)
Variable appId : string.
Variable API_URL : string.

(** The remote side: [net k] is how the request number [k] (from 0, in
    the order the requests are sent) ends. *)
Variable net : nat -> outcome js_error jsval.

Local Open Scope js_scope.

Definition request (c : RemoteCall) : M World js_error jsval :=
  fun w => (net (length (remote w)), send c w).

Definition set (f : AppState -> AppState) : M World js_error unit :=
  exec (setState f).

Definition log (label : string) : M World js_error unit :=
  exec (console_error label).

Definition tasksCollectionPath (u : option string) : string :=
  "artifacts/" ++ appId ++ "/users/" ++ template u ++ "/tasks".

Definition taskDocPath (u : option string) (taskId : string) : string :=
  "artifacts/" ++ appId ++ "/users/" ++ template u ++ "/tasks/" ++ taskId.

(** The callbacks given to [onSnapshot]. *)
Definition onSnapshotNext (docs : list Doc) : M World js_error unit :=
  let fetchedTasks := map fetchedTask docs in
  let fetchedTasks := sortTasks fetchedTasks in
  set (setTasks fetchedTasks) ;;
  set (setLoading false).

Definition onSnapshotError : M World js_error unit :=
  log "Firestore Listener Error:" ;;
  set (setErrorMessage "Failed to fetch tasks in real-time.") ;;
  set (setLoading false).

Definition addTask (text : string) : M World js_error unit :=
  fun w =>
    let st := app w in
    if no_db (db st) || no_user (userId st) || (trim text =? "") then ret tt w
    else
      try_catch
        (_ <- Retry.withRetry setTimeout
                (request (AddDoc (tasksCollectionPath (userId st))
                                 (trim text) false))
                Retry.default_retries ;;
         set (setNewTaskText ""))
        (fun error =>
           log "Error adding task:" ;;
           set (setErrorMessage could_not_add))
        w.

Definition toggleTaskCompletion (taskId : string) (taskCompleted : bool)
  : M World js_error unit :=
  fun w =>
    let st := app w in
    if no_db (db st) || no_user (userId st) then ret tt w
    else
      try_catch
        (_ <- Retry.withRetry setTimeout
                (request (UpdateDoc (taskDocPath (userId st) taskId)
                                    (negb taskCompleted)))
                Retry.default_retries ;;
         ret tt)
        (fun error =>
           log "Error toggling task:" ;;
           set (setErrorMessage "Could not update task status."))
        w.

Definition deleteTask (taskId : string) : M World js_error unit :=
  fun w =>
    let st := app w in
    if no_db (db st) || no_user (userId st) then ret tt w
    else
      try_catch
        (_ <- Retry.withRetry setTimeout
                (request (DeleteDoc (taskDocPath (userId st) taskId)))
                Retry.default_retries ;;
         ret tt)
        (fun error =>
           log "Error deleting task:" ;;
           set (setErrorMessage "Could not delete task."))
        w.

(** [response.data]: reading a property of [undefined] or [null] throws
    a [TypeError]; of any other value it gives the property, or
    [undefined]. *)
Definition response_data (response : jsval) : outcome js_error jsval :=
  match response with
  | JUndefined | JNull => Thrown typeError
  | _ => Returned (get_prop response "data")
  end.

(** The callback is memoised by [useCallback(..., [aiPrompt])]: the view
    holds the function created by the render in which the prompt last
    changed.  Its [aiPrompt] is therefore the present one, and its
    [isGenerating] is the flag of that render, [isGeneratingThen], which
    the guard reads; the setters act on the present state. *)
Definition generateTasksFromPromptMemo (isGeneratingThen : bool)
  : M World js_error unit :=
  fun w =>
    let st := app w in
    if (trim (aiPrompt st) =? "") || isGeneratingThen then ret tt w
    else
      (set (setIsGenerating true) ;;
       set (setGenerationError JNull) ;;
       set (setAiSuggestions []) ;;
       try_finally
         (try_catch
            (response <- Retry.withRetry setTimeout
                           (request (AxiosPost (API_URL ++ "/generate-tasks")
                                               (aiPrompt st)))
                           Retry.default_retries ;;
             match response with
             | None => throw typeError
             | Some response =>
                 data <- (fun w' => (response_data response, w')) ;;
                 if truthy data && isArray (get_prop data "tasks") then
                   set (setAiSuggestions (array_items (get_prop data "tasks")))
                 else
                   set (setGenerationError (JStr unexpected_format))
             end)
            (fun error =>
               log "AI Generation Error:" ;;
               set (setGenerationError (reported_error error))))
         (setState (setIsGenerating false)))
        w.

(** The callback while the flag has not changed since the render that
    created it.  Between two handlers the flag is [false] in every
    render, so this is the function the view holds in every world the
    actions reach. *)
Definition generateTasksFromPrompt : M World js_error unit :=
  fun w => generateTasksFromPromptMemo (isGenerating (app w)) w.

(** [addTask(taskText)] is called and not awaited; then the buffer is
    filtered. *)
Definition addAiSuggestion (taskText : string) : M World js_error unit :=
  fun w =>
    let '(_, w1) := addTask taskText w in
    set (fun st =>
           setAiSuggestions
             (List.filter (fun t => negb (strict_eq_string t taskText))
                          (aiSuggestions st))
             st)
        w1.

Definition dismissAiSuggestions : M World js_error unit :=
  set (setAiSuggestions []) ;;
  set (setAiPrompt "") ;;
  set (setShowAiModal false).

(** The handlers written in place in the view: "Clear All", the button
    that opens the dialog, and the two text inputs. *)
Definition clearAllSuggestions : M World js_error unit :=
  set (setAiSuggestions []).

Definition openAiModal : M World js_error unit :=
  set (setAiPrompt "") ;;
  set (setAiSuggestions []) ;;
  set (setGenerationError JNull) ;;
  set (setShowAiModal true).

Definition changeAiPrompt (value : string) : M World js_error unit :=
  set (setAiPrompt value).

Definition changeNewTaskText (value : string) : M World js_error unit :=
  set (setNewTaskText value).

(** Session binding: Firebase is initialised, and [onAuthStateChanged]
    reports a signed-in user. *)
Definition firebaseReady : M World js_error unit :=
  set (setDb (Some FirestoreHandle)) ;;
  set (setAuth (Some AuthHandle)).

Definition onAuthUser (uid : string) : M World js_error unit :=
  set (setUserId (Some uid)) ;;
  set (setIsAuthReady true).

(** The world a handler leaves. *)
Definition after {A : Type} (handler : M World js_error A) (w : World)
  : World :=
  snd (handler w).

(** *** The workflow as a transition system *)

Inductive action : Type :=
| FirebaseReady
| AuthUser (uid : string)
| Snapshot (docs : list Doc)
| ChangeNewTaskText (value : string)
| AddTask (text : string)
| ToggleTask (taskId : string) (taskCompleted : bool)
| DeleteTask (taskId : string)
| OpenAiModal
| ChangeAiPrompt (value : string)
| Generate
| AddAiSuggestion (taskText : string)
| Dismiss
| ClearAll.

Definition perform (a : action) : M World js_error unit :=
  match a with
  | FirebaseReady => firebaseReady
  | AuthUser uid => onAuthUser uid
  | Snapshot docs => onSnapshotNext docs
  | ChangeNewTaskText value => changeNewTaskText value
  | AddTask text => addTask text
  | ToggleTask taskId taskCompleted => toggleTaskCompletion taskId taskCompleted
  | DeleteTask taskId => deleteTask taskId
  | OpenAiModal => openAiModal
  | ChangeAiPrompt value => changeAiPrompt value
  | Generate => generateTasksFromPrompt
  | AddAiSuggestion taskText => addAiSuggestion taskText
  | Dismiss => dismissAiSuggestions
  | ClearAll => clearAllSuggestions
  end.

Definition run (w : World) (a : action) : World := after (perform a) w.

(** The worlds the component can be in: the initial one, and any world a
    handler leaves from one of them. *)
Inductive reachable : World -> Prop :=
| reachable_initial : reachable initialWorld
| reachable_step (w : World) (a : action) :
    reachable w -> reachable (run w a).

End Handlers.

(** The world after the requests and waits of an observed run of the retry
    executor around the request [c]. *)
Definition replay (c : RemoteCall) (tr : list Retry.event) (w : World) : World :=
  fold_left
    (fun w1 ev =>
       match ev with
       | Retry.Attempt => send c w1
       | Retry.Wait ms => setTimeout ms w1
       end)
    tr w.

(** The outcomes the requests meet from the request number [base] on. *)
Definition answers_from (net : nat -> outcome js_error jsval) (base : nat)
  : nat -> outcome js_error jsval :=
  fun j => net (base + j).

(** A response body has the expected list shape when it is an object with
    a [tasks] property that is an array. *)
Definition carries_tasks_array (data : jsval) : Prop :=
  exists props items,
    data = JObj props /\ lookup_prop "tasks" props = JArr items.

(** Suggestions are on display only while no generation error is
    pending. *)
Definition no_error_beside_suggestions (w : World) : Prop :=
  aiSuggestions (app w) <> [] -> generationError (app w) = JNull.

(** *** Concrete environments *)

Definition default_appId : string := "default-app-id".

Definition default_API_URL : string := "http://localhost:5001/api".

(** An HTTP response whose body is [data]. *)
Definition http_response (data : jsval) : jsval := JObj [("data", data)].

(** A backend that answers every request with the body [{foo: "bar"}]. *)
Definition net_foo_bar : nat -> outcome js_error jsval :=
  fun _ => Returned (http_response (JObj [("foo", JStr "bar")])).

(** A backend that answers the first request with
    [{tasks: ["Buy milk", "Buy milk"]}] and accepts every later one. *)
Definition net_buy_milk : nat -> outcome js_error jsval :=
  fun k =>
    match k with
    | O => Returned (http_response
                       (JObj [("tasks", JArr [JStr "Buy milk"; JStr "Buy milk"])]))
    | S _ => Returned JUndefined
    end.

(** A backend that answers every request with
    [{tasks: ["Draft outline", "Book venue"]}]. *)
Definition net_two_tasks : nat -> outcome js_error jsval :=
  fun _ =>
    Returned (http_response
                (JObj [("tasks", JArr [JStr "Draft outline"; JStr "Book venue"])])).

(** A backend that answers every request with [{tasks: [1, null]}]. *)
Definition net_mixed_items : nat -> outcome js_error jsval :=
  fun _ => Returned (http_response (JObj [("tasks", JArr [JNum 1; JNull])])).

(** [typeof v === 'string'] *)
Definition is_string (v : jsval) : bool :=
  match v with JStr _ => true | _ => false end.

(** A remote side that accepts every request, and one that fails them all. *)
Definition net_accepts : nat -> outcome js_error jsval :=
  fun _ => Returned JUndefined.

Definition net_down : nat -> outcome js_error jsval :=
  fun _ => Thrown {| message := "Network Error"; response := JUndefined |}.

(** The world once Firebase is initialised and the user [u1] is signed in. *)
Definition boundWorld : World :=
  setState (fun st => setIsAuthReady true
                        (setUserId (Some "u1")
                           (setAuth (Some AuthHandle)
                              (setDb (Some FirestoreHandle) st))))
           initialWorld.

(** The dialog is opened, a goal is typed and tasks are generated. *)
Definition generated (net : nat -> outcome js_error jsval) (goal : string)
  : World :=
  fold_left (run default_appId default_API_URL net)
            [FirebaseReady; AuthUser "u1"; OpenAiModal; ChangeAiPrompt goal;
             Generate]
            initialWorld.

End App.

(** ** The rest of the component: session, listener and view *)

Module Session.

Import Js Ordering App.

(** A call to the authentication service. *)
Inductive AuthCall : Type :=
| SignInWithCustomToken (token : string)
| SignInAnonymously
| SignOut.

(** The world of the component together with the authentication calls
    made so far. *)
Record Session : Type := {
  world : World;
  authCalls : list AuthCall
}.

Definition initialSession : Session :=
  {| world := initialWorld; authCalls := [] |}.

Definition onWorld (f : World -> World) (s : Session) : Session :=
  {| world := f (world s); authCalls := authCalls s |}.

Definition setS (f : AppState -> AppState) : M Session js_error unit :=
  exec (onWorld (setState f)).

Definition logS (label : string) : M Session js_error unit :=
  exec (onWorld (console_error label)).

(** An authentication call and how the service answers it. *)
Definition authRequest {A : Type} (c : AuthCall) (answer : outcome js_error A)
  : M Session js_error A :=
  fun s => (answer, {| world := world s; authCalls := authCalls s ++ [c] |}).

Definition firebase_missing : string := "Firebase configuration is missing.".

Definition sign_in_failed : string :=
  "Failed to sign in to Firebase. Check console for details.".

Definition logout_failed : string := "Failed to log out.".

Definition could_not_update : string := "Could not update task status.".

Definition could_not_delete : string := "Could not delete task.".

Definition fetch_failed : string := "Failed to fetch tasks in real-time.".

(** [!initialAuthToken] *)
Definition no_token (t : option string) : bool :=
  match t with
  | None => true
  | Some token => token =? ""
  end.

Local Open Scope js_scope.

(** The first effect of the component.  [firebaseConfig] is the parsed
    configuration or [null]; [initialize] is how [initializeApp],
    [getFirestore] and [getAuth] end, [listen] how the registration of the
    listener with [onAuthStateChanged] ends. *)
Definition initEffect
  (firebaseConfig : jsval) (initialize listen : outcome js_error unit)
  : M World js_error unit :=
  fun w =>
    if negb (truthy firebaseConfig) then
      (set (setErrorMessage firebase_missing) ;;
       set (setLoading false)) w
    else
      try_catch
        (_ <- (fun w1 => (initialize, w1)) ;;
         set (setDb (Some FirestoreHandle)) ;;
         set (setAuth (Some AuthHandle)) ;;
         (fun w1 => (listen, w1)))
        (fun e =>
           set (setErrorMessage ("Firebase Initialization Error: " ++ message e)) ;;
           set (setLoading false))
        w.

(** The callback given to [onAuthStateChanged]: [user] is the uid of the
    signed-in user, if any; [answer] is how the sign-in it may start ends,
    with the uid of the credentials. *)
Definition onAuthStateChangedCallback
  (initialAuthToken : option string) (answer : outcome js_error string)
  (user : option string) : M Session js_error unit :=
  match user with
  | Some uid =>
      setS (setUserId (Some uid)) ;;
      setS (setIsAuthReady true)
  | None =>
      try_finally
        (try_catch
           (if negb (no_token initialAuthToken) then
              uid <- authRequest
                       (SignInWithCustomToken (template initialAuthToken))
                       answer ;;
              setS (setUserId (Some uid))
            else
              uid <- authRequest SignInAnonymously answer ;;
              setS (setUserId (Some uid)))
           (fun error =>
              logS "Firebase Auth Error:" ;;
              setS (setErrorMessage sign_in_failed)))
        (fun s =>
           onWorld (setState (setLoading false))
                   (onWorld (setState (setIsAuthReady true)) s))
  end.

(** [handleLogout]; [answer] is how [signOut] ends. *)
Definition handleLogout (answer : outcome js_error unit)
  : M Session js_error unit :=
  fun s =>
    match auth (app (world s)) with
    | None => ret tt s
    | Some _ =>
        try_catch
          (_ <- authRequest SignOut answer ;;
           setS (setUserId None) ;;
           setS (setTasks []) ;;
           setS (setLoading true))
          (fun error =>
             logS "Logout Error:" ;;
             setS (setErrorMessage logout_failed))
          s
    end.

(** The effect that opens the live feed: the collection it subscribes to,
    if it does. *)
Definition listenerEffect (appId : string) (w : World) : option string * World :=
  let st := app w in
  if no_db (db st) || negb (isAuthReady st) || no_user (userId st) then (None, w)
  else (Some (tasksCollectionPath appId (userId st)),
        setState (setLoading true) w).

(** The form: [addTask(newTaskText)] on submit. *)
Definition submitTask (appId : string) (net : nat -> outcome js_error jsval)
  : M World js_error unit :=
  fun w => addTask appId net (newTaskText (app w)) w.

(** *** The view *)

(** [tasks.filter(t => !t.completed)] and [tasks.filter(t => t.completed)] *)
Definition incompleteTasks (tasks : list Task) : list Task :=
  List.filter (fun t => negb (completed t)) tasks.

Definition completedTasks (tasks : list Task) : list Task :=
  List.filter (fun t => completed t) tasks.

(** What stands under the heading "Tasks". *)
Inductive TaskSection : Type :=
| NoTasks
| AllCompleted
| Incomplete (items : list Task).

(** What the component draws. *)
Inductive Screen : Type :=
| LoadingScreen
| SystemError (msg : string)
| MainScreen (open : TaskSection) (done : list Task).

Definition render (st : AppState) : Screen :=
  if loading st || negb (isAuthReady st) then LoadingScreen
  else if negb (errorMessage st =? "") then SystemError (errorMessage st)
  else
    let incomplete := incompleteTasks (tasks st) in
    let complete := completedTasks (tasks st) in
    MainScreen
      (if (length incomplete =? 0)%nat && (length complete =? 0)%nat then NoTasks
       else if (length incomplete =? 0)%nat then AllCompleted
       else Incomplete incomplete)
      complete.

(** The tasks in the order they are drawn: the incomplete ones, then the
    section "Completed". *)
Definition displayed (st : AppState) : list Task :=
  incompleteTasks (tasks st) ++ completedTasks (tasks st).

(** [disabled] of the button "Add Task" and of the button "Generate
    Tasks" of the dialog. *)
Definition addDisabled (st : AppState) : bool := trim (newTaskText st) =? "".

Definition generateDisabled (st : AppState) : bool :=
  isGenerating st || (trim (aiPrompt st) =? "").

(** The identifier holds a ["/"]: it is more than one segment of a
    path. *)
Fixpoint has_slash (s : string) : bool :=
  match s with
  | EmptyString => false
  | String c rest => (c =? "/")%char || has_slash rest
  end.

(** *** Concrete environments *)

(** A backend that rejects every request with a status 500 and the body
    [{error: "Quota exceeded"}]. *)
Definition quota_error : js_error :=
  {| message := "Request failed with status code 500";
     response := JObj [("data", JObj [("error", JStr "Quota exceeded")])] |}.

Definition net_quota : nat -> outcome js_error jsval :=
  fun _ => Thrown quota_error.

(** The snapshot of the scenario, as documents. *)
Definition scenario_docs : list Doc :=
  [ {| doc_id := "a"; doc_text := ""; doc_completed := false;
       doc_createdAt := Some 10%Z |};
    {| doc_id := "b"; doc_text := ""; doc_completed := true;
       doc_createdAt := Some 20%Z |};
    {| doc_id := "c"; doc_text := ""; doc_completed := false;
       doc_createdAt := Some 30%Z |} ].

(** The bound world once the authentication is ready. *)
Definition readyWorld : World := setState (setIsAuthReady true) boundWorld.

Definition readySession : Session :=
  {| world := readyWorld; authCalls := [] |}.

(** The bound world with a goal typed into the dialog. *)
Definition promptWorld : World :=
  setState (setAiPrompt "plan a conference") boundWorld.

(** *** The component as a transition system *)

Inductive happening : Type :=
| Handler (a : action)
| Init (firebaseConfig : jsval) (initialize listen : outcome js_error unit)
| AuthStateChanged (initialAuthToken : option string)
                   (answer : outcome js_error string) (user : option string)
| Logout (answer : outcome js_error unit)
| Subscribe
| SnapshotError
| Submit.

Section Steps.
Variable appId : string.
Variable API_URL : string.
Variable net : nat -> outcome js_error jsval.

Definition step (s : Session) (h : happening) : Session :=
  match h with
  | Handler a => onWorld (fun w => run appId API_URL net w a) s
  | Init firebaseConfig initialize listen =>
      onWorld (after (initEffect firebaseConfig initialize listen)) s
  | AuthStateChanged initialAuthToken answer user =>
      snd (onAuthStateChangedCallback initialAuthToken answer user s)
  | Logout answer => snd (handleLogout answer s)
  | Subscribe => onWorld (fun w => snd (listenerEffect appId w)) s
  | SnapshotError => onWorld (after onSnapshotError) s
  | Submit => onWorld (after (submitTask appId net)) s
  end.

Inductive attainable : Session -> Prop :=
| attainable_initial : attainable initialSession
| attainable_step (s : Session) (h : happening) :
    attainable s -> attainable (step s h).
End Steps.

End Session.

(** * Properties *)

(** ** RetryExecutor *)

Module RetryFacts.

Import Retry.

Lemma attempts_app (tr1 tr2 : list event) :
  attempts (tr1 ++ tr2) = attempts tr1 + attempts tr2.
Proof.
  unfold attempts. rewrite List.filter_app, List.length_app. reflexivity.
Qed.

Lemma attempts_after_attempt (tr : list event) :
  attempts (tr ++ [Attempt]) = S (attempts tr).
Proof. rewrite attempts_app. cbn. lia. Qed.

Lemma attempts_after_wait (tr : list event) (ms : Z) :
  attempts ((tr ++ [Attempt]) ++ [Wait ms]) = S (attempts tr).
Proof. rewrite !attempts_app. cbn. lia. Qed.

Lemma schedule_from_step (i k : nat) :
  schedule_from i (S (S k)) =
  Attempt :: Wait (backoff i) :: schedule_from (S i) (S k).
Proof. reflexivity. Qed.

(** The schedule of [k] attempts has [k] attempts. *)
Lemma attempts_schedule_from (k i : nat) : attempts (schedule_from i k) = k.
Proof.
  revert i. induction k as [|k IH]; intros i; [reflexivity|].
  destruct k as [|k]; [reflexivity|].
  rewrite schedule_from_step.
  change (attempts (Attempt :: Wait (backoff i) :: schedule_from (S i) (S k)))
    with (S (attempts (schedule_from (S i) (S k)))).
  now rewrite IH.
Qed.

(** Its waits are the back-off delays of the attempts but the last. *)
Lemma waits_schedule_from (k i : nat) :
  waits (schedule_from i k) = List.map backoff (List.seq i (k - 1)).
Proof.
  revert i. induction k as [|k IH]; intros i; [reflexivity|].
  destruct k as [|k]; [reflexivity|].
  rewrite schedule_from_step.
  change (waits (Attempt :: Wait (backoff i) :: schedule_from (S i) (S k)))
    with (backoff i :: waits (schedule_from (S i) (S k))).
  rewrite IH. replace (S (S k) - 1) with (S (S k - 1)) by lia.
  reflexivity.
Qed.

Section ObservedRuns.
Context {E A : Type}.
Variable op : nat -> outcome E A.

(** One turn of the loop on a failed attempt that is not the last. *)
Lemma retry_loop_failed_turn (rem i n : nat) (tr : list event) (e : E) :
  attempts tr = i ->
  op i = Thrown e ->
  S i < n ->
  retry_loop observed_wait (observed_fn op) (S rem)
             (Z.of_nat i) (Z.of_nat n) tr =
  retry_loop observed_wait (observed_fn op) rem
             (Z.of_nat (S i)) (Z.of_nat n)
             ((tr ++ [Attempt]) ++ [Wait (backoff i)]).
Proof.
  intros Htr Hop Hlt. cbn [retry_loop].
  replace (Z.of_nat i <? Z.of_nat n)%Z with true
    by (symmetry; apply Z.ltb_lt; lia).
  unfold observed_fn at 1. rewrite Htr, Hop.
  replace (Z.of_nat i =? Z.of_nat n - 1)%Z with false
    by (symmetry; apply Z.eqb_neq; lia).
  replace (Z.of_nat i + 1)%Z with (Z.of_nat (S i)) by lia.
  reflexivity.
Qed.

(** Every attempt from [i] on fails: the loop makes all the attempts that
    are left and throws the error of the last one. *)
Lemma retry_loop_all_fail (k i : nat) (tr : list event) :
  attempts tr = i ->
  (forall j, i <= j < i + S k -> exists e, op j = Thrown e) ->
  exists e,
    op (i + k) = Thrown e /\
    retry_loop observed_wait (observed_fn op) (S k)
               (Z.of_nat i) (Z.of_nat (i + S k)) tr =
    (Thrown e, tr ++ schedule_from i (S k)).
Proof.
  revert i tr. induction k as [|k IH]; intros i tr Htr Hfail.
  - destruct (Hfail i) as [e He]; [lia|].
    exists e. rewrite Nat.add_0_r. split; [exact He|].
    cbn [retry_loop].
    replace (Z.of_nat i <? Z.of_nat (i + 1))%Z with true
      by (symmetry; apply Z.ltb_lt; lia).
    unfold observed_fn. rewrite Htr, He.
    replace (Z.of_nat i =? Z.of_nat (i + 1) - 1)%Z with true
      by (symmetry; apply Z.eqb_eq; lia).
    reflexivity.
  - destruct (Hfail i) as [e0 He0]; [lia|].
    rewrite (retry_loop_failed_turn _ _ _ _ e0) by (assumption || lia).
    destruct (IH (S i) ((tr ++ [Attempt]) ++ [Wait (backoff i)]))
      as [e [He Hrun]].
    + rewrite attempts_after_wait, Htr. reflexivity.
    + intros j Hj. apply Hfail. lia.
    + exists e. split.
      * replace (i + S k) with (S i + k) by lia. exact He.
      * replace (i + S (S k)) with (S i + S k) by lia.
        rewrite Hrun, schedule_from_step, <- !List.app_assoc.
        reflexivity.
Qed.

(** The attempts from [i] fail [m] times and then succeed within the
    budget: the loop stops at the success and returns it. *)
Lemma retry_loop_success (m i n rem : nat) (tr : list event) (v : A) :
  attempts tr = i ->
  rem + i = n ->
  i + m < n ->
  (forall j, i <= j < i + m -> exists e, op j = Thrown e) ->
  op (i + m) = Returned v ->
  retry_loop observed_wait (observed_fn op) rem
             (Z.of_nat i) (Z.of_nat n) tr =
  (Returned (Some v), tr ++ schedule_from i (S m)).
Proof.
  revert i rem tr.
  induction m as [|m IH]; intros i rem tr Htr Hrem Hlt Hfail Hok.
  - destruct rem as [|rem]; [lia|].
    rewrite Nat.add_0_r in Hok. cbn [retry_loop].
    replace (Z.of_nat i <? Z.of_nat n)%Z with true
      by (symmetry; apply Z.ltb_lt; lia).
    unfold observed_fn. rewrite Htr, Hok. reflexivity.
  - destruct rem as [|rem]; [lia|].
    destruct (Hfail i) as [e0 He0]; [lia|].
    rewrite (retry_loop_failed_turn _ _ _ _ e0) by (assumption || lia).
    rewrite (IH (S i)).
    + rewrite schedule_from_step, <- !List.app_assoc. reflexivity.
    + rewrite attempts_after_wait, Htr. reflexivity.
    + lia.
    + lia.
    + intros j Hj. apply Hfail. lia.
    + replace (S i + m) with (i + S m) by lia. exact Hok.
Qed.
End ObservedRuns.

Lemma execute_all_fail {E A : Type} (op : nat -> outcome E A) (n : nat) :
  1 <= n ->
  (forall j, j < n -> exists e, op j = Thrown e) ->
  exists e,
    op (n - 1) = Thrown e /\
    execute op (Z.of_nat n) = (Thrown e, schedule n).
Proof.
  intros Hn Hfail. destruct n as [|n]; [lia|].
  destruct (retry_loop_all_fail op n 0 []) as [e [He Hrun]].
  - reflexivity.
  - intros j Hj. apply Hfail. lia.
  - exists e. split.
    + replace (S n - 1) with (0 + n) by lia. exact He.
    + unfold execute, withRetry. rewrite Nat2Z.id. exact Hrun.
Qed.

Lemma execute_first_success
  {E A : Type} (op : nat -> outcome E A) (n k : nat) (v : A) :
  k < n ->
  (forall j, j < k -> exists e, op j = Thrown e) ->
  op k = Returned v ->
  execute op (Z.of_nat n) = (Returned (Some v), schedule (S k)).
Proof.
  intros Hk Hfail Hok. unfold execute, withRetry. rewrite Nat2Z.id.
  apply (retry_loop_success op k 0 n n [] v); try reflexivity; try lia.
  - intros j Hj. apply Hfail. lia.
  - exact Hok.
Qed.

Lemma attempts_preamble (j : nat) : attempts (preamble j) = j.
Proof.
  induction j as [|j IH]; [reflexivity|].
  cbn [preamble]. rewrite attempts_app, IH. cbn. lia.
Qed.

Section AnyOperation.
Context {W E A : Type}.
Variable setTimeout : Z -> W -> W.
Variable fn : M W E A.
Variable w0 : W.

Lemma run_trace_snoc (tr : list event) (ev : event) :
  run_trace setTimeout fn (tr ++ [ev]) w0 =
  happen setTimeout fn (run_trace setTimeout fn tr w0) ev.
Proof. unfold run_trace. now rewrite fold_left_app. Qed.

Lemma run_trace_preamble_S (j : nat) :
  run_trace setTimeout fn (preamble (S j)) w0 =
  setTimeout (backoff j)
             (snd (fn (run_trace setTimeout fn (preamble j) w0))).
Proof.
  cbn [preamble]. unfold run_trace. rewrite fold_left_app. reflexivity.
Qed.

(** The loop on an operation in its world does what the observed loop
    does on the outcomes of this operation, and its world is the one the
    observed events lead to. *)
Lemma retry_loop_observed (rem i : nat) (n : Z) :
  retry_loop setTimeout fn rem (Z.of_nat i) n
             (run_trace setTimeout fn (preamble i) w0) =
  (fst (retry_loop observed_wait
                   (observed_fn (outcome_at setTimeout fn w0))
                   rem (Z.of_nat i) n (preamble i)),
   run_trace setTimeout fn
     (snd (retry_loop observed_wait
                      (observed_fn (outcome_at setTimeout fn w0))
                      rem (Z.of_nat i) n (preamble i)))
     w0).
Proof.
  revert i. induction rem as [|rem IH]; intros i; [reflexivity|].
  cbn [retry_loop]. destruct (Z.of_nat i <? n)%Z; [|reflexivity].
  unfold observed_fn at 1 3. rewrite attempts_preamble.
  unfold outcome_at at 1 3.
  destruct (fn (run_trace setTimeout fn (preamble i) w0)) as [[v|e] w1] eqn:Hfn;
    cbn [fst snd].
  - rewrite run_trace_snoc. cbn [happen]. now rewrite Hfn.
  - destruct (Z.of_nat i =? n - 1)%Z; cbn [fst snd].
    + rewrite run_trace_snoc. cbn [happen]. now rewrite Hfn.
    + replace (Z.of_nat i + 1)%Z with (Z.of_nat (S i)) by lia.
      unfold observed_wait.
      change ((preamble i ++ [Attempt]) ++ [Wait (2 ^ Z.of_nat i * 1000)])
        with ((preamble i ++ [Attempt]) ++ [Wait (backoff i)]).
      replace ((preamble i ++ [Attempt]) ++ [Wait (backoff i)])
        with (preamble (S i))
        by (cbn [preamble]; now rewrite <- List.app_assoc).
      rewrite <- IH, run_trace_preamble_S, Hfn. reflexivity.
Qed.

Lemma withRetry_observed (n : Z) :
  withRetry setTimeout fn n w0 =
  (fst (execute (outcome_at setTimeout fn w0) n),
   run_trace setTimeout fn (snd (execute (outcome_at setTimeout fn w0) n)) w0).
Proof. exact (retry_loop_observed (Z.to_nat n) 0 n). Qed.
End AnyOperation.

(** C3.  With a budget of [n >= 1] attempts, for an operation [fn] in any
    world: when every attempt fails, the executor makes exactly [n]
    attempts, waits [2^i * 1000] milliseconds after the failed attempt
    number [i] (from 0) unless it was the last one, and throws the error of
    the [n]-th attempt; when the first success is the attempt number
    [k <= n] (from 1), it makes exactly [k] attempts, with the same waits
    in between, and returns that value.  The world it leaves is the one
    the schedule leads to, and the third part spells out what a schedule of
    [k] attempts contains. *)
Theorem withRetry_attempts_and_backoff
  {W E A : Type} (setTimeout : Z -> W -> W) (fn : M W E A) (w : W) (n : nat) :
  1 <= n ->
  ((forall j, j < n -> exists e, outcome_at setTimeout fn w j = Thrown e) ->
   exists e,
     outcome_at setTimeout fn w (n - 1) = Thrown e /\
     withRetry setTimeout fn (Z.of_nat n) w =
       (Thrown e, run_trace setTimeout fn (schedule n) w))
  /\
  (forall k v,
     1 <= k <= n ->
     (forall j, j < k - 1 -> exists e, outcome_at setTimeout fn w j = Thrown e) ->
     outcome_at setTimeout fn w (k - 1) = Returned v ->
     withRetry setTimeout fn (Z.of_nat n) w =
       (Returned (Some v), run_trace setTimeout fn (schedule k) w))
  /\
  (forall k,
     attempts (schedule k) = k /\
     waits (schedule k) =
       List.map (fun i => (2 ^ Z.of_nat i * 1000)%Z) (List.seq 0 (k - 1))).
Proof.
  intros Hn. split; [|split].
  - intros Hfail.
    destruct (execute_all_fail (outcome_at setTimeout fn w) n Hn Hfail)
      as [e [He Hrun]].
    exists e. split; [exact He|].
    now rewrite withRetry_observed, Hrun.
  - intros k v Hk Hfail Hok. destruct k as [|k]; [lia|].
    replace (S k - 1) with k in * by lia.
    rewrite withRetry_observed.
    rewrite (execute_first_success (outcome_at setTimeout fn w) n k v);
      [reflexivity|lia|exact Hfail|exact Hok].
  - intros k. split.
    + apply attempts_schedule_from.
    + apply waits_schedule_from.
Qed.

Lemma withRetry_attempts_and_backoff_witness :
  (exists e : nat,
     (fun k : nat => @Thrown nat nat k) (3 - 1) = Thrown e /\
     execute (fun k : nat => @Thrown nat nat k) (Z.of_nat 3) =
       (Thrown e, [Attempt; Wait 1000; Attempt; Wait 2000; Attempt]))
  /\
  execute (fun k : nat => if (k <? 1)%nat then @Thrown nat nat k else Returned 7)
          (Z.of_nat 3) =
    (Returned (Some 7), [Attempt; Wait 1000; Attempt]).
Proof.
  split.
  - apply (withRetry_attempts_and_backoff
             observed_wait (observed_fn (fun k : nat => @Thrown nat nat k)) [] 3).
    + lia.
    + intros j _. exists (attempts (run_trace
                             observed_wait
                             (observed_fn (fun k : nat => @Thrown nat nat k))
                             (preamble j) [])).
      reflexivity.
  - apply (proj1 (proj2 (withRetry_attempts_and_backoff
             observed_wait
             (observed_fn
                (fun k : nat => if (k <? 1)%nat then @Thrown nat nat k else Returned 7))
             [] 3 ltac:(lia))) 2 7).
    + lia.
    + intros j Hj. exists 0. destruct j as [|j]; [reflexivity|simpl in Hj; lia].
    + reflexivity.
Defined.

(** C10.  With a budget that is zero or negative the executor returns
    [undefined] at once: the world is as it was, whatever the operation,
    and an observed run contains no attempt. *)
Theorem withRetry_without_budget (retries : Z) :
  (retries <= 0)%Z ->
  (forall (W E A : Type) (setTimeout : Z -> W -> W) (fn : M W E A) (w : W),
     withRetry setTimeout fn retries w = (Returned None, w))
  /\
  (forall (E A : Type) (op : nat -> outcome E A),
     execute op retries = (Returned None, []) /\
     attempts (snd (execute op retries)) = 0).
Proof.
  intros Hle.
  assert (Hgen : forall (W E A : Type) (setTimeout : Z -> W -> W)
                        (fn : M W E A) (w : W),
             withRetry setTimeout fn retries w = (Returned None, w)).
  { intros. unfold withRetry. rewrite Z2Nat.nonpos by exact Hle. reflexivity. }
  split; [exact Hgen|].
  intros E A op. unfold execute. rewrite Hgen. split; reflexivity.
Qed.

Lemma withRetry_without_budget_witness :
  execute (fun k : nat => @Returned nat nat k) 0 = (Returned None, []) /\
  execute (fun k : nat => @Returned nat nat k) (-2) = (Returned None, []).
Proof.
  split.
  - apply (withRetry_without_budget 0); lia.
  - apply (withRetry_without_budget (-2)); lia.
Defined.

End RetryFacts.

(** ** OrderingPolicy *)

Module OrderingFacts.

Import Ordering.

(** *** Sorting with a consistent comparator *)

Section SortFacts.
Context {A : Type}.
Variable compareFn : A -> A -> Z.

Hypothesis le_total :
  forall x y, in_order compareFn x y \/ in_order compareFn y x.
Hypothesis le_trans :
  forall x y z,
    in_order compareFn x y -> in_order compareFn y z -> in_order compareFn x z.

Lemma insert_Permutation (x : A) (l : list A) :
  Permutation (insert compareFn x l) (x :: l).
Proof.
  induction l as [|y l IH]; cbn; [reflexivity|].
  destruct (compareFn x y <=? 0)%Z; [reflexivity|].
  rewrite IH. apply perm_swap.
Qed.

Lemma sort_Permutation (l : list A) : Permutation (sort compareFn l) l.
Proof.
  induction l as [|x l IH]; cbn; [reflexivity|].
  rewrite insert_Permutation. now apply perm_skip.
Qed.

Lemma insert_StronglySorted (x : A) (l : list A) :
  StronglySorted (in_order compareFn) l ->
  StronglySorted (in_order compareFn) (insert compareFn x l).
Proof.
  induction 1 as [|y l Hsorted IH Hall]; cbn.
  - repeat constructor.
  - destruct (compareFn x y <=? 0)%Z eqn:Hxy.
    + apply Z.leb_le in Hxy. constructor.
      * now constructor.
      * constructor; [exact Hxy|].
        eapply List.Forall_impl; [|exact Hall].
        intros z Hyz. now apply le_trans with y.
    + apply Z.leb_gt in Hxy. constructor; [exact IH|].
      rewrite insert_Permutation. constructor; [|exact Hall].
      destruct (le_total x y) as [Hle|Hle];
        [unfold in_order in Hle; lia|exact Hle].
Qed.

Lemma sort_StronglySorted (l : list A) :
  StronglySorted (in_order compareFn) (sort compareFn l).
Proof.
  induction l as [|x l IH]; cbn; [constructor|].
  now apply insert_StronglySorted.
Qed.

(** A list that is in order already is left as it is (stability). *)
Lemma sort_sorted_id (l : list A) :
  StronglySorted (in_order compareFn) l -> sort compareFn l = l.
Proof.
  induction 1 as [|x l Hsorted IH Hall]; cbn; [reflexivity|].
  rewrite IH. destruct Hall as [|y l Hxy _]; cbn; [reflexivity|].
  apply Z.leb_le in Hxy. now rewrite Hxy.
Qed.

Lemma sort_idempotent (l : list A) :
  sort compareFn (sort compareFn l) = sort compareFn l.
Proof. apply sort_sorted_id, sort_StronglySorted. Qed.

(** In a list that is in order, an earlier element may stand before a
    later one. *)
Lemma StronglySorted_lookup_le (l : list A) (i j : nat) (x y : A) :
  StronglySorted (in_order compareFn) l ->
  l !! i = Some x -> l !! j = Some y -> i < j -> in_order compareFn x y.
Proof.
  intros Hsorted. revert i j.
  induction Hsorted as [|z l Hsorted IH Hall]; intros i j Hi Hj Hlt.
  - discriminate.
  - destruct j as [|j]; [lia|]. cbn in Hj. destruct i as [|i].
    + cbn in Hi. injection Hi as ->.
      rewrite List.Forall_forall in Hall. apply Hall.
      apply list_elem_of_In. now apply list_elem_of_lookup_2 with j.
    + cbn in Hi. apply (IH i j); [assumption..|lia].
Qed.
End SortFacts.

(** The sort is stable: the elements the comparator does not tell from
    [a] keep the order they had. *)
Lemma sort_stable {A : Type} (compareFn : A -> A -> Z) (a : A) :
  (forall x y, compareFn a x = 0%Z -> (0 < compareFn x y)%Z ->
               compareFn a y <> 0%Z) ->
  forall l,
    List.filter (fun y => (compareFn a y =? 0)%Z) (sort compareFn l) =
    List.filter (fun y => (compareFn a y =? 0)%Z) l.
Proof.
  intros Hties.
  assert (Hins : forall x l,
    List.filter (fun y => (compareFn a y =? 0)%Z) (insert compareFn x l) =
    List.filter (fun y => (compareFn a y =? 0)%Z) (x :: l)).
  { intros x l. induction l as [|y l IH]; [reflexivity|].
    cbn [insert]. destruct (compareFn x y <=? 0)%Z eqn:Hxy; [reflexivity|].
    apply Z.leb_gt in Hxy.
    change (List.filter (fun z => (compareFn a z =? 0)%Z)
                        (y :: insert compareFn x l))
      with (if (compareFn a y =? 0)%Z
            then y :: List.filter (fun z => (compareFn a z =? 0)%Z)
                                  (insert compareFn x l)
            else List.filter (fun z => (compareFn a z =? 0)%Z)
                             (insert compareFn x l)).
    rewrite IH. cbn [List.filter].
    destruct (compareFn a x =? 0)%Z eqn:Hax;
      destruct (compareFn a y =? 0)%Z eqn:Hay; try reflexivity.
    apply Z.eqb_eq in Hax, Hay. destruct (Hties x y Hax); [lia|exact Hay]. }
  induction l as [|x l IH]; [reflexivity|].
  cbn [sort]. rewrite Hins. cbn [List.filter]. now rewrite IH.
Qed.

(** Mapping with a function the comparator does not see commutes with
    sorting. *)
Lemma sort_map_invariant {A : Type} (compareFn : A -> A -> Z) (f : A -> A) :
  (forall x y, compareFn (f x) (f y) = compareFn x y) ->
  forall l, sort compareFn (List.map f l) = List.map f (sort compareFn l).
Proof.
  intros Hf. assert (Hins : forall x l,
    insert compareFn (f x) (List.map f l) = List.map f (insert compareFn x l)).
  { intros x l. induction l as [|y l IH]; cbn; [reflexivity|].
    rewrite Hf. destruct (compareFn x y <=? 0)%Z; cbn; [reflexivity|].
    now rewrite IH. }
  induction l as [|x l IH]; cbn; [reflexivity|].
  now rewrite IH, Hins.
Qed.

(** *** The comparator of the listener *)

(** What the comparator decides: an incomplete task stands before a
    completed one; within a group the later time stands first. *)
Lemma precedes_spec (a b : Task) :
  precedes a b <->
  (completed a = false /\ completed b = true) \/
  (same_group a b /\ (timeOf b <= timeOf a)%Z).
Proof.
  unfold precedes, in_order, same_group, compareTasks.
  destruct (completed a), (completed b); cbn; split; intros H;
    try lia; try (right; split; [reflexivity|lia]);
    try (left; split; reflexivity);
    destruct H as [[H1 H2]|[H1 H2]]; try discriminate; lia.
Qed.

Lemma precedes_total (a b : Task) : precedes a b \/ precedes b a.
Proof.
  unfold precedes, in_order, compareTasks.
  destruct (completed a), (completed b); cbn; lia.
Qed.

Lemma precedes_trans (a b c : Task) :
  precedes a b -> precedes b c -> precedes a c.
Proof.
  unfold precedes, in_order, compareTasks.
  destruct (completed a), (completed b), (completed c); cbn; lia.
Qed.

(** The comparator is consistent, as [Array.prototype.sort] needs it: it
    is [0] on equal arguments, its sign flips with its arguments, and the
    order it gives is transitive. *)
Lemma compareTasks_consistent :
  (forall a, compareTasks a a = 0%Z) /\
  (forall a b, (compareTasks a b < 0)%Z <-> (0 < compareTasks b a)%Z) /\
  (forall a b, compareTasks a b = 0%Z <-> compareTasks b a = 0%Z) /\
  (forall a b c, (compareTasks a b <= 0)%Z -> (compareTasks b c <= 0)%Z ->
                 (compareTasks a c <= 0)%Z).
Proof.
  repeat split; intros; try (eapply precedes_trans; eassumption);
    unfold compareTasks in *;
    repeat match goal with
           | |- context [completed ?t] => destruct (completed t)
           | H : context [completed ?t] |- _ => destruct (completed t)
           end; cbn in *; lia.
Qed.

(** Tasks of equal rank keep the order of the snapshot. *)
Lemma sortTasks_stable (a : Task) (fetchedTasks : list Task) :
  List.filter (fun t => (compareTasks a t =? 0)%Z) (sortTasks fetchedTasks) =
  List.filter (fun t => (compareTasks a t =? 0)%Z) fetchedTasks.
Proof.
  apply sort_stable. intros x y. unfold compareTasks.
  destruct (completed a), (completed x), (completed y); cbn; lia.
Qed.

Lemma sortTasks_Permutation (fetchedTasks : list Task) :
  Permutation (sortTasks fetchedTasks) fetchedTasks.
Proof. apply sort_Permutation. Qed.

Lemma sortTasks_StronglySorted (fetchedTasks : list Task) :
  StronglySorted precedes (sortTasks fetchedTasks).
Proof.
  apply (sort_StronglySorted compareTasks precedes_total precedes_trans).
Qed.

(** Two positions of the output, the first one earlier: its task may stand
    before the other. *)
Lemma sortTasks_lookup_precedes
  (fetchedTasks : list Task) (i j : nat) (a b : Task) :
  sortTasks fetchedTasks !! i = Some a ->
  sortTasks fetchedTasks !! j = Some b ->
  i < j ->
  precedes a b.
Proof.
  intros Hi Hj Hlt.
  exact (StronglySorted_lookup_le compareTasks (sortTasks fetchedTasks)
           i j a b (sortTasks_StronglySorted fetchedTasks) Hi Hj Hlt).
Qed.

Lemma sortTasks_lookup_In (fetchedTasks : list Task) (i : nat) (a : Task) :
  sortTasks fetchedTasks !! i = Some a -> In a fetchedTasks.
Proof.
  intros Hi. apply (Permutation_in a (sortTasks_Permutation fetchedTasks)).
  apply list_elem_of_In. now apply list_elem_of_lookup_2 with i.
Qed.

Lemma compareTasks_resolved_as_zero (a b : Task) :
  compareTasks (resolved_as_zero a) (resolved_as_zero b) = compareTasks a b.
Proof.
  unfold compareTasks, timeOf, resolved_as_zero; cbn.
  destruct (createdAt a), (createdAt b); reflexivity.
Qed.

(** C5.  The output holds the tasks of the snapshot, and in it every
    incomplete task stands before every completed task. *)
Theorem incomplete_before_completed
  (fetchedTasks : list Task) (i j : nat) (a b : Task) :
  sortTasks fetchedTasks !! i = Some a ->
  sortTasks fetchedTasks !! j = Some b ->
  completed a = false ->
  completed b = true ->
  i < j /\ Permutation (sortTasks fetchedTasks) fetchedTasks.
Proof.
  intros Hi Hj Ha Hb. split; [|apply sortTasks_Permutation].
  destruct (Nat.lt_trichotomy i j) as [Hlt|[Heq|Hgt]]; [exact Hlt| |].
  - subst j. rewrite Hi in Hj. injection Hj as ->. congruence.
  - pose proof (sortTasks_lookup_precedes _ _ _ _ _ Hj Hi Hgt) as Hle.
    apply precedes_spec in Hle. unfold same_group in Hle.
    destruct Hle as [[H1 H2]|[H1 H2]]; congruence.
Qed.

Lemma incomplete_before_completed_witness :
  1 < 2 /\
  Permutation (sortTasks [task_a; task_b; task_c]) [task_a; task_b; task_c].
Proof.
  apply (incomplete_before_completed [task_a; task_b; task_c] 1 2 task_a task_b);
    reflexivity.
Defined.

(** C4, as the code has it.  The output holds the tasks of the snapshot,
    and within a completion group it is ordered by creation time, latest
    first, where the time of a task is its resolved timestamp and zero
    while the timestamp is unresolved: (1) the output is a permutation of
    the snapshot; (2) of two tasks of one group the later one in the
    output is not newer; (3) an unresolved timestamp counts as time zero,
    and the output is the one obtained with zero in its place; (4) an
    unresolved task stands after every task of its group with a positive
    timestamp and before every one with a negative timestamp; (5) when no
    resolved timestamp of the snapshot is negative, an unresolved task is
    not newer than any task of its group and only tasks of time zero
    follow it there: it is at the end of its group; (6) the snapshot
    [a, b, c] of the scenario is ordered [c, a, b]. *)
Theorem newest_first_within_group (fetchedTasks : list Task) :
  Permutation (sortTasks fetchedTasks) fetchedTasks
  /\
  (forall i j a b,
     sortTasks fetchedTasks !! i = Some a ->
     sortTasks fetchedTasks !! j = Some b ->
     i < j ->
     same_group a b ->
     (timeOf b <= timeOf a)%Z)
  /\
  ((forall t, createdAt t = None -> timeOf t = 0%Z) /\
   sortTasks (List.map resolved_as_zero fetchedTasks) =
   List.map resolved_as_zero (sortTasks fetchedTasks))
  /\
  (forall i j a b,
     sortTasks fetchedTasks !! i = Some a ->
     sortTasks fetchedTasks !! j = Some b ->
     same_group a b ->
     createdAt a = None ->
     ((0 < timeOf b)%Z -> j < i) /\ ((timeOf b < 0)%Z -> i < j))
  /\
  ((forall t, In t fetchedTasks -> server_assigned t) ->
   forall i j a b,
     sortTasks fetchedTasks !! i = Some a ->
     sortTasks fetchedTasks !! j = Some b ->
     same_group a b ->
     createdAt a = None ->
     (timeOf a <= timeOf b)%Z /\ (i < j -> timeOf b = 0%Z))
  /\
  sortTasks [task_a; task_b; task_c] = [task_c; task_a; task_b].
Proof.
  assert (Horder : forall i j a b,
             sortTasks fetchedTasks !! i = Some a ->
             sortTasks fetchedTasks !! j = Some b ->
             i < j -> same_group a b -> (timeOf b <= timeOf a)%Z).
  { intros i j a b Hi Hj Hlt Hgroup.
    pose proof (sortTasks_lookup_precedes _ _ _ _ _ Hi Hj Hlt) as Hle.
    apply precedes_spec in Hle. unfold same_group in Hgroup.
    destruct Hle as [[H1 H2]|[_ H2]]; [congruence|exact H2]. }
  split; [apply sortTasks_Permutation|].
  split; [exact Horder|]. split; [split|split; [|split]].
  - intros t Ht. unfold timeOf. now rewrite Ht.
  - apply sort_map_invariant. apply compareTasks_resolved_as_zero.
  - intros i j a b Hi Hj Hgroup Hnone.
    assert (Ha : timeOf a = 0%Z) by (unfold timeOf; now rewrite Hnone).
    assert (Hgroup' : same_group b a) by (unfold same_group in *; congruence).
    split; intros Hb.
    + destruct (Nat.lt_trichotomy i j) as [Hlt|[Heq|Hgt]]; [| |exact Hgt].
      * pose proof (Horder i j a b Hi Hj Hlt Hgroup). lia.
      * subst j. rewrite Hi in Hj. injection Hj as <-. lia.
    + destruct (Nat.lt_trichotomy i j) as [Hlt|[Heq|Hgt]]; [exact Hlt| |].
      * subst j. rewrite Hi in Hj. injection Hj as <-. lia.
      * pose proof (Horder j i b a Hj Hi Hgt Hgroup'). lia.
  - intros Hserver i j a b Hi Hj Hgroup Hnone.
    assert (Ha : timeOf a = 0%Z) by (unfold timeOf; now rewrite Hnone).
    assert (Hb : (0 <= timeOf b)%Z).
    { pose proof (Hserver b (sortTasks_lookup_In _ _ _ Hj)) as Hsrv.
      unfold server_assigned in Hsrv. unfold timeOf, or_zero.
      destruct (createdAt b) as [ms|]; [|lia].
      specialize (Hsrv ms eq_refl). destruct (ms =? 0)%Z; lia. }
    split; [lia|].
    intros Hlt. pose proof (Horder i j a b Hi Hj Hlt Hgroup). lia.
  - reflexivity.
Qed.

(** In the snapshot [u, a, b, c, z] the output is [c, a, u, z, b]: [a]
    follows the newer [c]; the unresolved [u] follows [c], of positive
    time, and only [z], of time zero, follows it in its group.  In the
    snapshot [n, u] the unresolved [u] stands before [n]. *)
Lemma newest_first_within_group_witness :
  (timeOf task_a <= timeOf task_c)%Z /\
  0 < 2 /\
  ((timeOf task_u <= timeOf task_z)%Z /\ timeOf task_z = 0%Z) /\
  0 < 1.
Proof.
  split; [|split; [|split]].
  - apply (proj1 (proj2 (newest_first_within_group
                           [task_u; task_a; task_b; task_c; task_z]))
             0 1 task_c task_a); try reflexivity. lia.
  - apply (proj1 (proj1 (proj2 (proj2 (proj2
                   (newest_first_within_group
                      [task_u; task_a; task_b; task_c; task_z]))))
                   2 0 task_u task_c eq_refl eq_refl eq_refl eq_refl)).
    reflexivity.
  - assert (Hserver : forall t,
               In t [task_u; task_a; task_b; task_c; task_z] ->
               server_assigned t).
    { intros t Ht ms Hms. cbn in Ht.
      destruct Ht as [<-|[<-|[<-|[<-|[<-|[]]]]]]; cbn in Hms;
        try discriminate; injection Hms as <-; lia. }
    destruct (proj1 (proj2 (proj2 (proj2 (proj2
               (newest_first_within_group
                  [task_u; task_a; task_b; task_c; task_z])))))
               Hserver 2 3 task_u task_z eq_refl eq_refl eq_refl eq_refl)
      as [Hmin Hend].
    split; [exact Hmin|apply Hend; lia].
  - apply (proj2 (proj1 (proj2 (proj2 (proj2
                   (newest_first_within_group [task_n; task_u]))))
                   0 1 task_u task_n eq_refl eq_refl eq_refl eq_refl)).
    reflexivity.
Defined.

(** C4 as the specification states it fails: in the snapshot [n, u] the
    task [n] has a resolved timestamp before the epoch and [u] an
    unresolved one.  Both are incomplete, and the output is [u, n]: the
    unresolved task is moved to the front of its group, where the
    minimum possible timestamp would leave it at the end. *)
Lemma unresolved_stands_before_negative_timestamp :
  same_group task_n task_u /\
  createdAt task_u = None /\
  createdAt task_n = Some (-5)%Z /\
  sortTasks [task_n; task_u] = [task_u; task_n] /\
  sortTasks [task_n; task_u] <> [task_n; task_u].
Proof.
  split; [reflexivity|]. split; [reflexivity|]. split; [reflexivity|].
  split; [vm_compute; reflexivity|vm_compute; discriminate].
Qed.

(** C6.  Ordering is idempotent: ordering an ordered sequence again gives
    the same sequence. *)
Theorem sortTasks_idempotent (fetchedTasks : list Task) :
  sortTasks (sortTasks fetchedTasks) = sortTasks fetchedTasks.
Proof.
  apply (sort_idempotent compareTasks precedes_total precedes_trans).
Qed.

End OrderingFacts.

(** ** TaskStore and SuggestionReconciler *)

Module AppFacts.

Import Js Ordering App.
Import Retry RetryFacts.

(** *** Replaying an observed run in the world of the component *)

Lemma replay_snoc (c : RemoteCall) (tr : list event) (ev : event) (w : World) :
  replay c (tr ++ [ev]) w =
  match ev with
  | Attempt => send c (replay c tr w)
  | Wait ms => setTimeout ms (replay c tr w)
  end.
Proof. unfold replay. rewrite fold_left_app. reflexivity. Qed.

Lemma app_replay (c : RemoteCall) (tr : list event) (w : World) :
  app (replay c tr w) = app w.
Proof.
  revert w. induction tr as [|ev tr IH]; intros w; [reflexivity|].
  change (replay c (ev :: tr) w) with
    (replay c tr match ev with
                 | Attempt => send c w
                 | Wait ms => setTimeout ms w
                 end).
  rewrite IH. now destruct ev.
Qed.

Lemma console_replay (c : RemoteCall) (tr : list event) (w : World) :
  console (replay c tr w) = console w.
Proof.
  revert w. induction tr as [|ev tr IH]; intros w; [reflexivity|].
  change (replay c (ev :: tr) w) with
    (replay c tr match ev with
                 | Attempt => send c w
                 | Wait ms => setTimeout ms w
                 end).
  rewrite IH. now destruct ev.
Qed.

Lemma remote_replay (c : RemoteCall) (tr : list event) (w : World) :
  remote (replay c tr w) = remote w ++ List.repeat c (attempts tr).
Proof.
  revert w. induction tr as [|ev tr IH]; intros w.
  - cbn. now rewrite List.app_nil_r.
  - change (replay c (ev :: tr) w) with
      (replay c tr match ev with
                   | Attempt => send c w
                   | Wait ms => setTimeout ms w
                   end).
    rewrite IH. destruct ev; cbn; [|reflexivity].
    now rewrite <- List.app_assoc.
Qed.

Lemma timers_replay (c : RemoteCall) (tr : list event) (w : World) :
  timers (replay c tr w) = timers w ++ waits tr.
Proof.
  revert w. induction tr as [|ev tr IH]; intros w.
  - cbn. now rewrite List.app_nil_r.
  - change (replay c (ev :: tr) w) with
      (replay c tr match ev with
                   | Attempt => send c w
                   | Wait ms => setTimeout ms w
                   end).
    rewrite IH. destruct ev; cbn; [reflexivity|].
    now rewrite <- List.app_assoc.
Qed.

Lemma length_remote_replay (c : RemoteCall) (tr : list event) (w : World) :
  length (remote (replay c tr w)) = length (remote w) + attempts tr.
Proof. now rewrite remote_replay, List.length_app, List.repeat_length. Qed.

Section RetriedRequests.
Variable net : nat -> outcome js_error jsval.
Variable c : RemoteCall.
Variable w0 : World.

(** The loop around a request does what the observed loop does on the
    answers of the remote side. *)
Lemma retry_loop_request_replay (rem : nat) (i n : Z) (tr : list event) :
  retry_loop setTimeout (request net c) rem i n (replay c tr w0) =
  (fst (retry_loop observed_wait
                   (observed_fn (answers_from net (length (remote w0))))
                   rem i n tr),
   replay c
     (snd (retry_loop observed_wait
                      (observed_fn (answers_from net (length (remote w0))))
                      rem i n tr))
     w0).
Proof.
  revert i tr. induction rem as [|rem IH]; intros i tr; [reflexivity|].
  cbn [retry_loop]. destruct (i <? n)%Z; [|reflexivity].
  unfold request at 1, observed_fn at 1 3.
  rewrite length_remote_replay.
  fold (answers_from net (length (remote w0)) (attempts tr)).
  destruct (answers_from net (length (remote w0)) (attempts tr)) as [v|e].
  - cbn [fst snd]. now rewrite replay_snoc.
  - destruct (i =? n - 1)%Z.
    + cbn [fst snd]. now rewrite replay_snoc.
    + rewrite <- IH. unfold observed_wait.
      rewrite !replay_snoc. reflexivity.
Qed.

Lemma withRetry_request_replay (n : Z) :
  withRetry setTimeout (request net c) n w0 =
  (fst (execute (answers_from net (length (remote w0))) n),
   replay c (snd (execute (answers_from net (length (remote w0))) n)) w0).
Proof.
  unfold withRetry, execute.
  exact (retry_loop_request_replay (Z.to_nat n) 0 n []).
Qed.

(** Retrying a request leaves the state of the component alone. *)
Lemma app_withRetry_request (n : Z) :
  app (snd (withRetry setTimeout (request net c) n w0)) = app w0.
Proof. rewrite withRetry_request_replay. apply app_replay. Qed.
End RetriedRequests.

(** *** The mutations of the task collection *)

Section Mutations.
Variable appId : string.
Variable net : nat -> outcome js_error jsval.

(** [addTask] past its guard: the retried request, then the input is
    cleared or the failure is reported. *)
Lemma addTask_sent (text : string) (w : World) :
  no_db (db (app w)) = false ->
  no_user (userId (app w)) = false ->
  trim text <> "" ->
  addTask appId net text w =
  let c := AddDoc (tasksCollectionPath appId (userId (app w))) (trim text) false in
  let answers := answers_from net (length (remote w)) in
  let tr := snd (execute answers default_retries) in
  match fst (execute answers default_retries) with
  | Returned _ =>
      (Returned tt, setState (setNewTaskText "") (replay c tr w))
  | Thrown _ =>
      (Returned tt,
       setState (setErrorMessage could_not_add)
                (console_error "Error adding task:" (replay c tr w)))
  end.
Proof.
  intros Hdb Huser Htext. unfold addTask.
  rewrite Hdb, Huser. apply String.eqb_neq in Htext. rewrite Htext.
  cbn [orb]. unfold try_catch, bind.
  rewrite withRetry_request_replay.
  destruct (fst (execute _ default_retries)); reflexivity.
Qed.

(** Whatever happens, [addTask] touches neither the suggestion buffer
    nor the generation error. *)
Lemma addTask_frame (text : string) (w : World) :
  aiSuggestions (app (after (addTask appId net text) w)) =
    aiSuggestions (app w) /\
  generationError (app (after (addTask appId net text) w)) =
    generationError (app w).
Proof.
  unfold after, addTask.
  destruct (no_db (db (app w)) || no_user (userId (app w)) ||
            (trim text =? "")); [split; reflexivity|].
  unfold try_catch, bind. rewrite withRetry_request_replay.
  destruct (fst (execute _ default_retries)); cbn; rewrite app_replay;
    split; reflexivity.
Qed.

Lemma toggleTaskCompletion_frame
  (taskId : string) (taskCompleted : bool) (w : World) :
  aiSuggestions
    (app (after (toggleTaskCompletion appId net taskId taskCompleted) w)) =
    aiSuggestions (app w) /\
  generationError
    (app (after (toggleTaskCompletion appId net taskId taskCompleted) w)) =
    generationError (app w).
Proof.
  unfold after, toggleTaskCompletion.
  destruct (no_db (db (app w)) || no_user (userId (app w)));
    [split; reflexivity|].
  unfold try_catch, bind. rewrite withRetry_request_replay.
  destruct (fst (execute _ default_retries)); cbn; rewrite app_replay;
    split; reflexivity.
Qed.

Lemma deleteTask_frame (taskId : string) (w : World) :
  aiSuggestions (app (after (deleteTask appId net taskId) w)) =
    aiSuggestions (app w) /\
  generationError (app (after (deleteTask appId net taskId) w)) =
    generationError (app w).
Proof.
  unfold after, deleteTask.
  destruct (no_db (db (app w)) || no_user (userId (app w)));
    [split; reflexivity|].
  unfold try_catch, bind. rewrite withRetry_request_replay.
  destruct (fst (execute _ default_retries)); cbn; rewrite app_replay;
    split; reflexivity.
Qed.

(** C8.  [addTask] with a text that is empty once trimmed does nothing,
    whatever the session; and while no principal is bound [addTask],
    [toggleTaskCompletion] and [deleteTask] do nothing: the handler
    returns with the world as it was, so no request was sent and no
    state changed.  The texts [""] and ["   "] are two such texts. *)
Theorem mutations_do_nothing_when_blank_or_unbound (w : World) :
  (forall text, trim text = "" ->
     addTask appId net text w = (Returned tt, w))
  /\
  (no_user (userId (app w)) = true ->
   forall text taskId taskCompleted,
     addTask appId net text w = (Returned tt, w) /\
     toggleTaskCompletion appId net taskId taskCompleted w = (Returned tt, w) /\
     deleteTask appId net taskId w = (Returned tt, w))
  /\
  (addTask appId net "" w = (Returned tt, w) /\
   addTask appId net "   " w = (Returned tt, w)).
Proof.
  assert (Hblank : forall text, trim text = "" ->
            addTask appId net text w = (Returned tt, w)).
  { intros text Htext. unfold addTask. rewrite Htext.
    change ("" =? "") with true. now rewrite !orb_true_r. }
  split; [exact Hblank|]. split.
  - intros Huser text taskId taskCompleted.
    unfold addTask, toggleTaskCompletion, deleteTask.
    rewrite Huser, !orb_true_r. repeat split; reflexivity.
  - split; apply Hblank; reflexivity.
Qed.
End Mutations.

Section CreateOutcome.
Variable appId : string.
Variable net : nat -> outcome js_error jsval.

(** C9.  A call of [addTask] that passes its guard sends its request
    through the retry executor.  When one of the three attempts succeeds
    the text input is cleared (and no failure is reported); when all
    three fail the failure is reported in [errorMessage] and the text
    input is left as it was.  [remote] shows the requests sent. *)
Theorem addTask_clears_input_on_success_only (text : string) (w : World) :
  no_db (db (app w)) = false ->
  no_user (userId (app w)) = false ->
  trim text <> "" ->
  (forall k v,
     k < 3 ->
     (forall j, j < k -> exists e, net (length (remote w) + j) = Thrown e) ->
     net (length (remote w) + k) = Returned v ->
     newTaskText (app (after (addTask appId net text) w)) = "" /\
     errorMessage (app (after (addTask appId net text) w)) =
       errorMessage (app w) /\
     remote (after (addTask appId net text) w) =
       remote w ++
       List.repeat
         (AddDoc (tasksCollectionPath appId (userId (app w))) (trim text) false)
         (S k))
  /\
  ((forall j, j < 3 -> exists e, net (length (remote w) + j) = Thrown e) ->
   errorMessage (app (after (addTask appId net text) w)) = could_not_add /\
   newTaskText (app (after (addTask appId net text) w)) =
     newTaskText (app w) /\
   remote (after (addTask appId net text) w) =
     remote w ++
     List.repeat
       (AddDoc (tasksCollectionPath appId (userId (app w))) (trim text) false)
       3).
Proof.
  intros Hdb Huser Htext. unfold after.
  rewrite (addTask_sent appId net text w Hdb Huser Htext). cbv zeta.
  change default_retries with (Z.of_nat 3). split.
  - intros k v Hk Hfail Hok.
    rewrite (execute_first_success (answers_from net (length (remote w))) 3 k v
               Hk Hfail Hok). cbn [fst snd].
    unfold setState; cbn [app remote newTaskText errorMessage setNewTaskText].
    rewrite app_replay, remote_replay. unfold schedule.
    now rewrite attempts_schedule_from.
  - intros Hfail.
    destruct (execute_all_fail (answers_from net (length (remote w))) 3)
      as [e [_ Hrun]]; [lia|exact Hfail|].
    rewrite Hrun. cbn [fst snd].
    unfold setState, console_error;
      cbn [app remote newTaskText errorMessage setErrorMessage].
    rewrite app_replay, remote_replay. unfold schedule.
    now rewrite attempts_schedule_from.
Qed.
End CreateOutcome.

Lemma addTask_clears_input_on_success_only_witness :
  (newTaskText
     (app (after (addTask default_appId net_accepts "Buy milk")
                 (setState (setNewTaskText "Buy milk") boundWorld))) = "" /\
   errorMessage
     (app (after (addTask default_appId net_accepts "Buy milk")
                 (setState (setNewTaskText "Buy milk") boundWorld))) = "" /\
   remote (after (addTask default_appId net_accepts "Buy milk")
                 (setState (setNewTaskText "Buy milk") boundWorld)) =
     [AddDoc "artifacts/default-app-id/users/u1/tasks" "Buy milk" false])
  /\
  (errorMessage
     (app (after (addTask default_appId net_down "Buy milk")
                 (setState (setNewTaskText "Buy milk") boundWorld))) =
     could_not_add /\
   newTaskText
     (app (after (addTask default_appId net_down "Buy milk")
                 (setState (setNewTaskText "Buy milk") boundWorld))) =
     "Buy milk" /\
   remote (after (addTask default_appId net_down "Buy milk")
                 (setState (setNewTaskText "Buy milk") boundWorld)) =
     [AddDoc "artifacts/default-app-id/users/u1/tasks" "Buy milk" false;
      AddDoc "artifacts/default-app-id/users/u1/tasks" "Buy milk" false;
      AddDoc "artifacts/default-app-id/users/u1/tasks" "Buy milk" false]).
Proof.
  split.
  - apply (proj1 (addTask_clears_input_on_success_only
                    default_appId net_accepts "Buy milk"
                    (setState (setNewTaskText "Buy milk") boundWorld)
                    eq_refl eq_refl ltac:(discriminate))
             0 JUndefined).
    + lia.
    + intros j Hj. lia.
    + reflexivity.
  - apply (proj2 (addTask_clears_input_on_success_only
                    default_appId net_down "Buy milk"
                    (setState (setNewTaskText "Buy milk") boundWorld)
                    eq_refl eq_refl ltac:(discriminate))).
    intros j _. eexists. reflexivity.
Defined.

Lemma mutations_do_nothing_when_blank_or_unbound_witness :
  addTask default_appId net_accepts (String.String "009"%char " ") boundWorld =
    (Returned tt, boundWorld) /\
  (addTask default_appId net_accepts "Buy milk" initialWorld =
     (Returned tt, initialWorld) /\
   toggleTaskCompletion default_appId net_accepts "t1" false initialWorld =
     (Returned tt, initialWorld) /\
   deleteTask default_appId net_accepts "t1" initialWorld =
     (Returned tt, initialWorld)).
Proof.
  split.
  - apply (proj1 (mutations_do_nothing_when_blank_or_unbound
                    default_appId net_accepts boundWorld)).
    reflexivity.
  - apply (proj1 (proj2 (mutations_do_nothing_when_blank_or_unbound
                           default_appId net_accepts initialWorld))).
    reflexivity.
Defined.

(** *** Generating suggestions *)

Section Generation.
Variable API_URL : string.
Variable net : nat -> outcome js_error jsval.

(** The memoised callback past its guard: the flag it captured is
    [false]; the present flag is not read. *)
Lemma generateTasksFromPromptMemo_sent (w : World) :
  trim (aiPrompt (app w)) <> "" ->
  after (generateTasksFromPromptMemo API_URL net false) w =
  let w1 :=
    setState (setAiSuggestions [])
      (setState (setGenerationError JNull)
         (setState (setIsGenerating true) w)) in
  let c := AxiosPost (API_URL ++ "/generate-tasks") (aiPrompt (app w)) in
  let answers := answers_from net (length (remote w)) in
  let w2 := replay c (snd (execute answers default_retries)) w1 in
  setState (setIsGenerating false)
    match fst (execute answers default_retries) with
    | Returned (Some response) =>
        match response_data response with
        | Returned data =>
            if truthy data && isArray (get_prop data "tasks") then
              setState (setAiSuggestions (array_items (get_prop data "tasks")))
                       w2
            else
              setState (setGenerationError (JStr unexpected_format)) w2
        | Thrown e =>
            setState (setGenerationError (reported_error e))
                     (console_error "AI Generation Error:" w2)
        end
    | Returned None =>
        setState (setGenerationError (reported_error typeError))
                 (console_error "AI Generation Error:" w2)
    | Thrown e =>
        setState (setGenerationError (reported_error e))
                 (console_error "AI Generation Error:" w2)
    end.
Proof.
  intros Hprompt. unfold after, generateTasksFromPromptMemo.
  apply String.eqb_neq in Hprompt. rewrite Hprompt. cbn [orb].
  unfold bind at 1 2 3. unfold set at 1 2 3. unfold exec.
  unfold try_finally, try_catch. unfold bind at 1.
  rewrite withRetry_request_replay.
  change (remote
            (setState (setAiSuggestions [])
               (setState (setGenerationError JNull)
                  (setState (setIsGenerating true) w))))
    with (remote w).
  cbv zeta.
  destruct (fst (execute (answers_from net (length (remote w)))
                         default_retries)) as [[resp|]|e].
  - unfold bind. destruct (response_data resp) as [data|e]; cbn [fst snd].
    + destruct (truthy data && isArray (get_prop data "tasks"));
        reflexivity.
    + reflexivity.
  - reflexivity.
  - reflexivity.
Qed.

(** [generateTasksFromPrompt] past its guard. *)
Lemma generateTasksFromPrompt_sent (w : World) :
  trim (aiPrompt (app w)) <> "" ->
  isGenerating (app w) = false ->
  after (generateTasksFromPrompt API_URL net) w =
  let w1 :=
    setState (setAiSuggestions [])
      (setState (setGenerationError JNull)
         (setState (setIsGenerating true) w)) in
  let c := AxiosPost (API_URL ++ "/generate-tasks") (aiPrompt (app w)) in
  let answers := answers_from net (length (remote w)) in
  let w2 := replay c (snd (execute answers default_retries)) w1 in
  setState (setIsGenerating false)
    match fst (execute answers default_retries) with
    | Returned (Some response) =>
        match response_data response with
        | Returned data =>
            if truthy data && isArray (get_prop data "tasks") then
              setState (setAiSuggestions (array_items (get_prop data "tasks")))
                       w2
            else
              setState (setGenerationError (JStr unexpected_format)) w2
        | Thrown e =>
            setState (setGenerationError (reported_error e))
                     (console_error "AI Generation Error:" w2)
        end
    | Returned None =>
        setState (setGenerationError (reported_error typeError))
                 (console_error "AI Generation Error:" w2)
    | Thrown e =>
        setState (setGenerationError (reported_error e))
                 (console_error "AI Generation Error:" w2)
    end.
Proof.
  intros Hprompt Hidle. unfold generateTasksFromPrompt, after.
  rewrite Hidle. exact (generateTasksFromPromptMemo_sent w Hprompt).
Qed.

(** The callback stopped by its guard: a blank prompt, or a captured
    flag that is set. *)
Lemma generateTasksFromPromptMemo_guard (isGeneratingThen : bool) (w : World) :
  trim (aiPrompt (app w)) = "" \/ isGeneratingThen = true ->
  generateTasksFromPromptMemo API_URL net isGeneratingThen w = (Returned tt, w).
Proof.
  intros [Hblank| ->]; unfold generateTasksFromPromptMemo.
  - now rewrite Hblank.
  - now rewrite orb_true_r.
Qed.

(** A body with a [tasks] array passes the test of the handler, any
    other body fails it. *)
Lemma tasks_array_test (data : jsval) :
  truthy data && isArray (get_prop data "tasks") = true <->
  carries_tasks_array data.
Proof.
  unfold carries_tasks_array. split.
  - intros H. apply andb_true_iff in H as [_ H].
    destruct data as [| | | | |items|props]; try discriminate.
    cbn in H. destruct (lookup_prop "tasks" props) as [| | | | |items|]
      eqn:Hlookup; try discriminate.
    now exists props, items.
  - intros (props & items & -> & Hlookup). cbn. now rewrite Hlookup.
Qed.

(** A response with a [data] object is neither [undefined] nor [null]. *)
Lemma response_data_object (resp : jsval) (props : list (string * jsval)) :
  get_prop resp "data" = JObj props ->
  response_data resp = Returned (JObj props).
Proof.
  destruct resp; cbn; try discriminate. now intros ->.
Qed.

(** The generation succeeds at the attempt number [k] with the body
    [data]: a body with a [tasks] array becomes the buffer, its items as
    they are, and no error is set. *)
Lemma generate_accepts_any_array
  (w : World) (k : nat) (resp : jsval) (props : list (string * jsval))
  (items : list jsval) :
  trim (aiPrompt (app w)) <> "" ->
  isGenerating (app w) = false ->
  k < 3 ->
  (forall j, j < k -> exists e, net (length (remote w) + j) = Thrown e) ->
  net (length (remote w) + k) = Returned resp ->
  get_prop resp "data" = JObj props ->
  lookup_prop "tasks" props = JArr items ->
  aiSuggestions (app (after (generateTasksFromPrompt API_URL net) w)) = items /\
  generationError (app (after (generateTasksFromPrompt API_URL net) w)) = JNull.
Proof.
  intros Hprompt Hidle Hk Hfail Hok Hdata Htasks.
  rewrite (generateTasksFromPrompt_sent w Hprompt Hidle). cbv zeta.
  change default_retries with (Z.of_nat 3).
  rewrite (execute_first_success (answers_from net (length (remote w))) 3 k resp
             Hk Hfail Hok). cbn [fst snd].
  rewrite (response_data_object resp props Hdata).
  cbn [truthy get_prop isArray andb]. rewrite Htasks.
  unfold setState;
    cbn [app aiSuggestions generationError setIsGenerating setAiSuggestions
         setGenerationError array_items].
  rewrite app_replay. split; reflexivity.
Qed.

(** The generation call succeeds (at the attempt number [k] of the
    three) with a response whose body is [data].  If [data] is an object
    whose [tasks] is an array of strings, the buffer becomes exactly this
    list and no error is set; if [data] has no [tasks] array, the format
    error is set and the buffer stays empty. *)
Lemma generate_fills_buffer_or_reports_format
  (w : World) (k : nat) (resp data : jsval) :
  trim (aiPrompt (app w)) <> "" ->
  isGenerating (app w) = false ->
  k < 3 ->
  (forall j, j < k -> exists e, net (length (remote w) + j) = Thrown e) ->
  net (length (remote w) + k) = Returned resp ->
  response_data resp = Returned data ->
  (forall props suggestions,
     data = JObj props ->
     lookup_prop "tasks" props = JArr (List.map JStr suggestions) ->
     aiSuggestions (app (after (generateTasksFromPrompt API_URL net) w)) =
       List.map JStr suggestions /\
     generationError (app (after (generateTasksFromPrompt API_URL net) w)) =
       JNull)
  /\
  (~ carries_tasks_array data ->
   generationError (app (after (generateTasksFromPrompt API_URL net) w)) =
     JStr unexpected_format /\
   aiSuggestions (app (after (generateTasksFromPrompt API_URL net) w)) = []).
Proof.
  intros Hprompt Hidle Hk Hfail Hok Hdata.
  assert (Hget : get_prop resp "data" = data).
  { destruct resp; cbn in Hdata; try discriminate; now injection Hdata. }
  split.
  - intros props suggestions Hobj Htasks. subst data.
    now apply (generate_accepts_any_array w k resp props).
  - intros Hshape.
    rewrite (generateTasksFromPrompt_sent w Hprompt Hidle). cbv zeta.
    change default_retries with (Z.of_nat 3).
    rewrite (execute_first_success (answers_from net (length (remote w))) 3 k resp
             Hk Hfail Hok). cbn [fst snd].
    rewrite Hdata.
    destruct (truthy data && isArray (get_prop data "tasks")) eqn:Htest.
    + apply tasks_array_test in Htest. contradiction.
    + unfold setState;
        cbn [app aiSuggestions generationError setIsGenerating
             setAiSuggestions setGenerationError].
      rewrite app_replay. split; reflexivity.
Qed.

(** The response is [undefined] or [null]: reading its [data] throws, the
    [catch] block logs and stores the connection failure, not the format
    error. *)
Lemma generate_without_response_object
  (w : World) (k : nat) (resp : jsval) :
  trim (aiPrompt (app w)) <> "" ->
  isGenerating (app w) = false ->
  k < 3 ->
  (forall j, j < k -> exists e, net (length (remote w) + j) = Thrown e) ->
  net (length (remote w) + k) = Returned resp ->
  resp = JUndefined \/ resp = JNull ->
  generationError (app (after (generateTasksFromPrompt API_URL net) w)) =
    JStr cannot_connect /\
  aiSuggestions (app (after (generateTasksFromPrompt API_URL net) w)) = [] /\
  console (after (generateTasksFromPrompt API_URL net) w) =
    console w ++ ["AI Generation Error:"].
Proof.
  intros Hprompt Hidle Hk Hfail Hok Hresp.
  rewrite (generateTasksFromPrompt_sent w Hprompt Hidle). cbv zeta.
  change default_retries with (Z.of_nat 3).
  rewrite (execute_first_success (answers_from net (length (remote w))) 3 k resp
             Hk Hfail Hok). cbn [fst snd].
  assert (Hthrown : response_data resp = Thrown typeError)
    by (destruct Hresp as [-> | ->]; reflexivity).
  rewrite Hthrown.
  unfold setState, console_error;
    cbn [app console aiSuggestions generationError setIsGenerating
         setAiSuggestions setGenerationError].
  rewrite app_replay, console_replay. repeat split; reflexivity.
Qed.
End Generation.

Lemma generate_fills_buffer_or_reports_format_witness :
  (aiSuggestions
     (app (after (generateTasksFromPrompt default_API_URL net_two_tasks)
                 (setState (setAiPrompt "plan a conference") boundWorld))) =
     List.map JStr ["Draft outline"; "Book venue"] /\
   generationError
     (app (after (generateTasksFromPrompt default_API_URL net_two_tasks)
                 (setState (setAiPrompt "plan a conference") boundWorld))) =
     JNull)
  /\
  (generationError
     (app (after (generateTasksFromPrompt default_API_URL net_foo_bar)
                 (setState (setAiPrompt "plan a conference") boundWorld))) =
     JStr unexpected_format /\
   aiSuggestions
     (app (after (generateTasksFromPrompt default_API_URL net_foo_bar)
                 (setState (setAiPrompt "plan a conference") boundWorld))) = []).
Proof.
  split.
  - apply (proj1 (generate_fills_buffer_or_reports_format
                    default_API_URL net_two_tasks
                    (setState (setAiPrompt "plan a conference") boundWorld)
                    0 _ _
                    ltac:(discriminate) eq_refl ltac:(lia)
                    ltac:(intros j Hj; lia) eq_refl eq_refl)
             [("tasks", JArr [JStr "Draft outline"; JStr "Book venue"])]
             ["Draft outline"; "Book venue"]);
      reflexivity.
  - apply (proj2 (generate_fills_buffer_or_reports_format
                    default_API_URL net_foo_bar
                    (setState (setAiPrompt "plan a conference") boundWorld)
                    0 _ _
                    ltac:(discriminate) eq_refl ltac:(lia)
                    ltac:(intros j Hj; lia) eq_refl eq_refl)).
    intros (props & items & Hobj & Hlookup).
    injection Hobj as <-. discriminate Hlookup.
Defined.

(** *** Promoting and dismissing suggestions *)

Section Suggestions.
Variable appId : string.
Variable API_URL : string.
Variable net : nat -> outcome js_error jsval.

(** After [addAiSuggestion] the world is the one [addTask] leaves, with
    the buffer filtered. *)
Lemma addAiSuggestion_after (taskText : string) (w : World) :
  after (addAiSuggestion appId net taskText) w =
    setState
      (setAiSuggestions
         (List.filter (fun t => negb (strict_eq_string t taskText))
                      (aiSuggestions (app w))))
      (after (addTask appId net taskText) w).
Proof.
  unfold after at 1, addAiSuggestion.
  destruct (addTask appId net taskText w) as [r w1] eqn:Hadd.
  pose proof (proj1 (addTask_frame appId net taskText w)) as Hframe.
  unfold after in *. rewrite Hadd in *. cbn [snd] in *.
  unfold set, exec, setState. cbn [snd]. now rewrite Hframe.
Qed.

(** C1, as the code has it.  [addAiSuggestion taskText] removes every
    entry of the buffer that equals [taskText] and keeps the other
    entries in their order, so that no entry equal to [taskText] is
    left; and it calls [addTask taskText] once: apart from the buffer the
    world is the one a single [addTask taskText] leaves. *)
Theorem addAiSuggestion_removes_every_match (taskText : string) (w : World) :
  aiSuggestions (app (after (addAiSuggestion appId net taskText) w)) =
    List.filter (fun t => negb (strict_eq_string t taskText))
                (aiSuggestions (app w))
  /\
  ~ In (JStr taskText)
       (aiSuggestions (app (after (addAiSuggestion appId net taskText) w)))
  /\
  after (addAiSuggestion appId net taskText) w =
    setState
      (setAiSuggestions
         (List.filter (fun t => negb (strict_eq_string t taskText))
                      (aiSuggestions (app w))))
      (after (addTask appId net taskText) w).
Proof.
  rewrite addAiSuggestion_after.
  unfold setState at 1 2; cbn [app aiSuggestions setAiSuggestions].
  split; [reflexivity|]. split; [|reflexivity].
  intros Hin. apply List.filter_In in Hin as [_ Hkept].
  cbn in Hkept. now rewrite String.eqb_refl in Hkept.
Qed.

(** The "Dismiss" button is drawn with the suggestions only, and where
    suggestions are on display no generation error is pending: this
    holds initially and every handler keeps it. *)
Lemma perform_keeps_no_error_beside_suggestions (a : action) (w : World) :
  no_error_beside_suggestions w ->
  no_error_beside_suggestions (run appId API_URL net w a).
Proof.
  unfold no_error_beside_suggestions, run. intros Hinv.
  destruct a as [|uid|docs|value|txt|taskId taskCompleted|taskId| |value|
                 |taskText| |];
    cbn [perform]; try exact Hinv; try (intros H; reflexivity);
    try (cbn; intros H; now destruct H).
  - destruct (addTask_frame appId net txt w) as [-> ->]. exact Hinv.
  - destruct (toggleTaskCompletion_frame appId net taskId taskCompleted w)
      as [-> ->]. exact Hinv.
  - destruct (deleteTask_frame appId net taskId w) as [-> ->]. exact Hinv.
  - destruct (String.eqb_spec (trim (aiPrompt (app w))) "") as [Hblank|Hprompt].
    { unfold after, generateTasksFromPrompt, generateTasksFromPromptMemo. rewrite Hblank. exact Hinv. }
    destruct (isGenerating (app w)) eqn:Hidle.
    { unfold after, generateTasksFromPrompt, generateTasksFromPromptMemo. rewrite Hidle, orb_true_r.
      exact Hinv. }
    rewrite (generateTasksFromPrompt_sent API_URL net w Hprompt Hidle).
    cbv zeta.
    destruct (fst (execute _ default_retries)) as [[resp|]|e].
    + destruct (response_data resp) as [data|e];
        [destruct (truthy data && isArray (get_prop data "tasks"))|];
        unfold setState, console_error;
        cbn [app aiSuggestions generationError setIsGenerating
             setAiSuggestions setGenerationError];
        rewrite ?app_replay; cbn; intros H;
        first [reflexivity | now destruct H].
    + unfold setState, console_error;
        cbn [app aiSuggestions generationError setIsGenerating
             setAiSuggestions setGenerationError];
        rewrite ?app_replay; cbn; intros H; now destruct H.
    + unfold setState, console_error;
        cbn [app aiSuggestions generationError setIsGenerating
             setAiSuggestions setGenerationError];
        rewrite ?app_replay; cbn; intros H; now destruct H.
  - rewrite addAiSuggestion_after.
    unfold setState at 1 2; cbn [app aiSuggestions generationError setAiSuggestions].
    destruct (addTask_frame appId net taskText w) as [_ ->].
    intros Hkept. apply Hinv. intros Hempty. apply Hkept.
    now rewrite Hempty.
Qed.

Lemma reachable_no_error_beside_suggestions (w : World) :
  reachable appId API_URL net w -> no_error_beside_suggestions w.
Proof.
  induction 1 as [|w a _ IH].
  - intros H. reflexivity.
  - now apply perform_keeps_no_error_beside_suggestions.
Qed.

Lemma reachable_fold_left (actions : list action) (w : World) :
  reachable appId API_URL net w ->
  reachable appId API_URL net (fold_left (run appId API_URL net) actions w).
Proof.
  revert w. induction actions as [|a actions IH]; intros w Hw; [exact Hw|].
  apply IH. now constructor.
Qed.
End Suggestions.

(** C2.  In every reachable world in which the view offers "Dismiss",
    which it draws together with the suggestions, that is with a buffer
    that is not empty, [dismissAiSuggestions] leaves the buffer empty, no
    generation error pending and the prompt empty; it closes the dialog.
    The handler has no [setGenerationError]: no error is pending beside
    suggestions in a reachable world, and none is afterwards. *)
Theorem dismissAiSuggestions_leaves_nothing_pending
  (appId API_URL : string) (net : nat -> outcome js_error jsval) (w : World) :
  reachable appId API_URL net w ->
  aiSuggestions (app w) <> [] ->
  aiSuggestions (app (after dismissAiSuggestions w)) = [] /\
  generationError (app (after dismissAiSuggestions w)) = JNull /\
  aiPrompt (app (after dismissAiSuggestions w)) = "" /\
  showAiModal (app (after dismissAiSuggestions w)) = false.
Proof.
  intros Hw Hbuffer. split; [reflexivity|]. split; [|split; reflexivity].
  exact (reachable_no_error_beside_suggestions appId API_URL net w Hw Hbuffer).
Qed.

Lemma dismissAiSuggestions_leaves_nothing_pending_witness :
  aiSuggestions (app (generated net_two_tasks "plan a conference")) =
    [JStr "Draft outline"; JStr "Book venue"] /\
  aiSuggestions
    (app (after dismissAiSuggestions
                (generated net_two_tasks "plan a conference"))) = [] /\
  generationError
    (app (after dismissAiSuggestions
                (generated net_two_tasks "plan a conference"))) = JNull /\
  aiPrompt
    (app (after dismissAiSuggestions
                (generated net_two_tasks "plan a conference"))) = "" /\
  showAiModal
    (app (after dismissAiSuggestions
                (generated net_two_tasks "plan a conference"))) = false.
Proof.
  assert (Hreach : reachable default_appId default_API_URL net_two_tasks
                             (generated net_two_tasks "plan a conference")).
  { unfold generated. apply reachable_fold_left. constructor. }
  split; [vm_compute; reflexivity|].
  apply (dismissAiSuggestions_leaves_nothing_pending
           default_appId default_API_URL net_two_tasks
           (generated net_two_tasks "plan a conference") Hreach).
  vm_compute. discriminate.
Defined.

(** C1 as the specification states it fails: the backend returned
    ["Buy milk"] twice, and promoting it empties the buffer instead of
    leaving one ["Buy milk"]. *)
Lemma addAiSuggestion_removes_both_duplicates :
  reachable default_appId default_API_URL net_buy_milk
            (generated net_buy_milk "groceries") /\
  aiSuggestions (app (generated net_buy_milk "groceries")) =
    [JStr "Buy milk"; JStr "Buy milk"] /\
  aiSuggestions
    (app (after (addAiSuggestion default_appId net_buy_milk "Buy milk")
                (generated net_buy_milk "groceries"))) = [] /\
  aiSuggestions
    (app (after (addAiSuggestion default_appId net_buy_milk "Buy milk")
                (generated net_buy_milk "groceries"))) <> [JStr "Buy milk"] /\
  remote (after (addAiSuggestion default_appId net_buy_milk "Buy milk")
                (generated net_buy_milk "groceries")) =
    remote (generated net_buy_milk "groceries") ++
    [AddDoc "artifacts/default-app-id/users/u1/tasks" "Buy milk" false].
Proof.
  split; [unfold generated; apply reachable_fold_left; constructor|].
  split; [vm_compute; reflexivity|].
  split; [vm_compute; reflexivity|].
  split; [vm_compute; discriminate|].
  vm_compute; reflexivity.
Qed.

(** C7.  The backend answers [{tasks: [1, null]}]: an array, but not
    the array of strings the handler expects.  The handler tests
    [Array.isArray] only: the items become the buffer as they are and no
    generation error is set. *)
Theorem generate_accepts_items_that_are_not_strings :
  reachable default_appId default_API_URL net_mixed_items
            (generated net_mixed_items "plan a conference") /\
  aiSuggestions (app (generated net_mixed_items "plan a conference")) =
    [JNum 1; JNull] /\
  forallb is_string
          (aiSuggestions (app (generated net_mixed_items "plan a conference"))) =
    false /\
  generationError (app (generated net_mixed_items "plan a conference")) =
    JNull /\
  generationError (app (generated net_mixed_items "plan a conference")) <>
    JStr unexpected_format.
Proof.
  split; [unfold generated; apply reachable_fold_left; constructor|].
  split; [vm_compute; reflexivity|].
  split; [vm_compute; reflexivity|].
  split; [vm_compute; reflexivity|].
  vm_compute; discriminate.
Qed.

End AppFacts.


(** ** More on the retry executor *)

Module RetryMore.

Import Retry RetryFacts.

(** The observed loop always runs a schedule: from the attempt number [i]
    it makes [k] attempts, at least one when the budget allows it; all of
    them but the last fail, and it stops before the budget is used up
    only on a success. *)
Lemma retry_loop_shape {E A : Type} (op : nat -> outcome E A) (n rem i : nat)
  (tr : list event) :
  attempts tr = i ->
  rem + i = n ->
  exists k,
    k <= rem /\
    snd (retry_loop observed_wait (observed_fn op) rem
                    (Z.of_nat i) (Z.of_nat n) tr) =
      tr ++ schedule_from i k /\
    (forall j, i <= j -> j < i + k - 1 -> exists e, op j = Thrown e) /\
    match fst (retry_loop observed_wait (observed_fn op) rem
                          (Z.of_nat i) (Z.of_nat n) tr) with
    | Returned (Some v) => 1 <= k /\ op (i + k - 1) = Returned v
    | Returned None => rem = 0
    | Thrown e => 1 <= k /\ k = rem /\ op (i + k - 1) = Thrown e
    end.
Proof.
  revert i tr. induction rem as [|rem IH]; intros i tr Htr Hrem.
  - exists 0. cbn. rewrite List.app_nil_r.
    split; [lia|]. split; [reflexivity|]. split; [intros j; lia|reflexivity].
  - destruct (op i) as [v|e] eqn:Hop.
    + exists 1. cbn [retry_loop].
      replace (Z.of_nat i <? Z.of_nat n)%Z with true
        by (symmetry; apply Z.ltb_lt; lia).
      unfold observed_fn. rewrite Htr, Hop. cbn [fst snd schedule_from].
      replace (i + 1 - 1) with i by lia.
      split; [lia|]. split; [reflexivity|]. split; [intros j; lia|].
      split; [lia|exact Hop].
    + destruct rem as [|rem].
      * exists 1. cbn [retry_loop].
        replace (Z.of_nat i <? Z.of_nat n)%Z with true
          by (symmetry; apply Z.ltb_lt; lia).
        unfold observed_fn. rewrite Htr, Hop.
        replace (Z.of_nat i =? Z.of_nat n - 1)%Z with true
          by (symmetry; apply Z.eqb_eq; lia).
        cbn [fst snd schedule_from].
        replace (i + 1 - 1) with i by lia.
        split; [lia|]. split; [reflexivity|]. split; [intros j; lia|].
        split; [lia|]. split; [reflexivity|exact Hop].
      * rewrite (retry_loop_failed_turn op _ i n tr e Htr Hop) by lia.
        destruct (IH (S i) ((tr ++ [Attempt]) ++ [Wait (backoff i)]))
          as (k & Hk & Htrace & Hfailed & Hout).
        { rewrite attempts_after_wait, Htr. reflexivity. }
        { lia. }
        destruct k as [|k].
        { exfalso.
          destruct (fst (retry_loop observed_wait (observed_fn op) (S rem)
                                    (Z.of_nat (S i)) (Z.of_nat n)
                                    ((tr ++ [Attempt]) ++ [Wait (backoff i)])))
            as [[v|]|e']; [lia|discriminate|lia]. }
        exists (S (S k)). split; [lia|]. split; [|split].
        -- rewrite Htrace, schedule_from_step, <- !List.app_assoc. reflexivity.
        -- intros j Hlow Hhigh.
           destruct (Nat.eq_dec j i) as [->|Hji]; [now exists e|].
           apply Hfailed; lia.
        -- destruct (fst (retry_loop observed_wait (observed_fn op) (S rem)
                                     (Z.of_nat (S i)) (Z.of_nat n)
                                     ((tr ++ [Attempt]) ++ [Wait (backoff i)])))
             as [[v|]|e'].
           ++ destruct Hout as [_ Hv]. split; [lia|].
              replace (i + S (S k) - 1) with (S i + S k - 1) by lia. exact Hv.
           ++ discriminate.
           ++ destruct Hout as (_ & Hrem' & He'). split; [lia|]. split; [lia|].
              replace (i + S (S k) - 1) with (S i + S k - 1) by lia. exact He'.
Qed.

(** With a budget of [n >= 1] attempts the executor makes at least one
    attempt: [k] of them, [1 <= k <= n], with the waits of the schedule in
    between.  The attempts before the last all failed, and the last one
    is a success unless the budget is used up.  The executor settles as
    its last attempt did: it returns its value as it is, or throws its
    error. *)
Theorem withRetry_with_budget
  {W E A : Type} (setTimeout : Z -> W -> W) (fn : M W E A) (w : W) (n : nat) :
  1 <= n ->
  exists k,
    1 <= k <= n /\
    snd (withRetry setTimeout fn (Z.of_nat n) w) =
      run_trace setTimeout fn (schedule k) w /\
    fst (withRetry setTimeout fn (Z.of_nat n) w) =
      settled (outcome_at setTimeout fn w (k - 1)) /\
    (forall j, j < k - 1 ->
               exists e, outcome_at setTimeout fn w j = Thrown e) /\
    (k < n -> exists v, outcome_at setTimeout fn w (k - 1) = Returned v).
Proof.
  intros Hn. rewrite withRetry_observed. cbn [fst snd].
  unfold execute, withRetry. rewrite Nat2Z.id.
  destruct (retry_loop_shape (outcome_at setTimeout fn w) n n 0 [])
    as (k & Hk & Htrace & Hfailed & Hout); [reflexivity|lia|].
  exists k. cbn [app] in Htrace. fold (schedule k) in Htrace.
  change (Z.of_nat 0) with 0%Z in Htrace, Hout.
  rewrite Htrace.
  assert (Hearlier : forall j, j < k - 1 ->
            exists e, outcome_at setTimeout fn w j = Thrown e)
    by (intros j Hj; apply Hfailed; lia).
  destruct (fst (retry_loop observed_wait
                            (observed_fn (outcome_at setTimeout fn w)) n
                            0 (Z.of_nat n) [])) as [[v|]|e].
  - destruct Hout as [Hk1 Hv]. cbn [Nat.add] in Hv. rewrite Hv.
    split; [lia|]. split; [reflexivity|]. split; [reflexivity|].
    split; [exact Hearlier|]. intros _. now exists v.
  - lia.
  - destruct Hout as (Hk1 & Hkn & He). cbn [Nat.add] in He. rewrite He.
    split; [lia|]. split; [reflexivity|]. split; [reflexivity|].
    split; [exact Hearlier|]. intros Hlt. lia.
Qed.

(** An operation that fails once and then returns 7, with a budget of
    three attempts. *)
Lemma withRetry_with_budget_witness :
  exists k,
    1 <= k <= 3 /\
    snd (execute (fun j : nat => if (j <? 1)%nat then @Thrown nat nat j
                                 else Returned 7) (Z.of_nat 3)) =
      run_trace observed_wait
        (observed_fn (fun j : nat => if (j <? 1)%nat then @Thrown nat nat j
                                     else Returned 7))
        (schedule k) [] /\
    fst (execute (fun j : nat => if (j <? 1)%nat then @Thrown nat nat j
                                 else Returned 7) (Z.of_nat 3)) =
      settled
        (outcome_at observed_wait
           (observed_fn (fun j : nat => if (j <? 1)%nat then @Thrown nat nat j
                                        else Returned 7))
           [] (k - 1)) /\
    (forall j, j < k - 1 ->
       exists e,
         outcome_at observed_wait
           (observed_fn (fun j : nat => if (j <? 1)%nat then @Thrown nat nat j
                                        else Returned 7))
           [] j = Thrown e) /\
    (k < 3 ->
     exists v,
       outcome_at observed_wait
         (observed_fn (fun j : nat => if (j <? 1)%nat then @Thrown nat nat j
                                      else Returned 7))
         [] (k - 1) = Returned v).
Proof.
  apply (withRetry_with_budget
           observed_wait
           (observed_fn (fun j : nat => if (j <? 1)%nat then @Thrown nat nat j
                                        else Returned 7))
           [] 3).
  lia.
Defined.

End RetryMore.

(** ** Mutations, generation and promotion: the remaining behaviour *)

Module HandlerFacts.

Import Js Ordering App.
Import Retry RetryFacts RetryMore AppFacts.

(** The observed run with a budget of [n >= 1] is a schedule of [k]
    attempts, [1 <= k <= n]; it ends with the value of the attempt number
    [k], or with its error when [k = n]. *)
Lemma execute_shape {E A : Type} (op : nat -> outcome E A) (n : nat) :
  1 <= n ->
  exists k,
    1 <= k <= n /\
    snd (execute op (Z.of_nat n)) = schedule k /\
    match fst (execute op (Z.of_nat n)) with
    | Returned (Some v) => op (k - 1) = Returned v
    | Returned None => False
    | Thrown e => k = n /\ op (k - 1) = Thrown e
    end.
Proof.
  intros Hn. unfold execute, withRetry. rewrite Nat2Z.id.
  destruct (retry_loop_shape op n n 0 []) as (k & Hk & Htrace & _ & Hout);
    [reflexivity|lia|].
  change (Z.of_nat 0) with 0%Z in Htrace, Hout.
  exists k. cbn [app] in Htrace. fold (schedule k) in Htrace.
  destruct (fst (retry_loop observed_wait (observed_fn op) n 0 (Z.of_nat n) []))
    as [[v|]|e].
  - destruct Hout as [Hk1 Hv]. repeat split; [lia|lia|exact Htrace|exact Hv].
  - lia.
  - destruct Hout as (Hk1 & Hkn & He).
    repeat split; [lia|lia|exact Htrace|exact Hkn|exact He].
Qed.

(** What [k] attempts at the request [c] leave in the world. *)
Lemma replay_schedule (c : RemoteCall) (k : nat) (w : World) :
  app (replay c (schedule k) w) = app w /\
  console (replay c (schedule k) w) = console w /\
  remote (replay c (schedule k) w) = remote w ++ List.repeat c k /\
  timers (replay c (schedule k) w) =
    timers w ++ List.map backoff (List.seq 0 (k - 1)).
Proof.
  rewrite app_replay, console_replay, remote_replay, timers_replay.
  unfold schedule. rewrite attempts_schedule_from, waits_schedule_from.
  repeat split.
Qed.

Section Requests.
Variable appId : string.
Variable net : nat -> outcome js_error jsval.

(** [toggleTaskCompletion] past its guard. *)
Lemma toggleTaskCompletion_sent
  (taskId : string) (taskCompleted : bool) (w : World) :
  no_db (db (app w)) = false ->
  no_user (userId (app w)) = false ->
  toggleTaskCompletion appId net taskId taskCompleted w =
  let c := UpdateDoc (taskDocPath appId (userId (app w)) taskId)
                     (negb taskCompleted) in
  let answers := answers_from net (length (remote w)) in
  let tr := snd (execute answers default_retries) in
  match fst (execute answers default_retries) with
  | Returned _ => (Returned tt, replay c tr w)
  | Thrown _ =>
      (Returned tt,
       setState (setErrorMessage Session.could_not_update)
                (console_error "Error toggling task:" (replay c tr w)))
  end.
Proof.
  intros Hdb Huser. unfold toggleTaskCompletion.
  rewrite Hdb, Huser. cbn [orb]. unfold try_catch, bind.
  rewrite withRetry_request_replay.
  destruct (fst (execute _ default_retries)); reflexivity.
Qed.

(** [deleteTask] past its guard. *)
Lemma deleteTask_sent (taskId : string) (w : World) :
  no_db (db (app w)) = false ->
  no_user (userId (app w)) = false ->
  deleteTask appId net taskId w =
  let c := DeleteDoc (taskDocPath appId (userId (app w)) taskId) in
  let answers := answers_from net (length (remote w)) in
  let tr := snd (execute answers default_retries) in
  match fst (execute answers default_retries) with
  | Returned _ => (Returned tt, replay c tr w)
  | Thrown _ =>
      (Returned tt,
       setState (setErrorMessage Session.could_not_delete)
                (console_error "Error deleting task:" (replay c tr w)))
  end.
Proof.
  intros Hdb Huser. unfold deleteTask.
  rewrite Hdb, Huser. cbn [orb]. unfold try_catch, bind.
  rewrite withRetry_request_replay.
  destruct (fst (execute _ default_retries)); reflexivity.
Qed.

(** [toggleTaskCompletion] past its guard sends the update with the
    negated flag through the retry executor.  When one of the three
    attempts succeeds the component state is left as it is: the task list
    is not changed locally.  When all three fail, after waits of 1000 and
    2000 milliseconds, the failure is reported in [errorMessage] and
    nothing else of the state changes. *)
Theorem toggleTaskCompletion_outcome
  (taskId : string) (taskCompleted : bool) (w : World) :
  no_db (db (app w)) = false ->
  no_user (userId (app w)) = false ->
  (forall k v,
     k < 3 ->
     (forall j, j < k -> exists e, net (length (remote w) + j) = Thrown e) ->
     net (length (remote w) + k) = Returned v ->
     app (after (toggleTaskCompletion appId net taskId taskCompleted) w) =
       app w /\
     remote (after (toggleTaskCompletion appId net taskId taskCompleted) w) =
       remote w ++
       List.repeat (UpdateDoc (taskDocPath appId (userId (app w)) taskId)
                              (negb taskCompleted))
                   (S k))
  /\
  ((forall j, j < 3 -> exists e, net (length (remote w) + j) = Thrown e) ->
   app (after (toggleTaskCompletion appId net taskId taskCompleted) w) =
     setErrorMessage Session.could_not_update (app w) /\
   remote (after (toggleTaskCompletion appId net taskId taskCompleted) w) =
     remote w ++
     List.repeat (UpdateDoc (taskDocPath appId (userId (app w)) taskId)
                            (negb taskCompleted))
                 3 /\
   timers (after (toggleTaskCompletion appId net taskId taskCompleted) w) =
     timers w ++ [1000; 2000]%Z).
Proof.
  intros Hdb Huser. unfold after.
  rewrite (toggleTaskCompletion_sent taskId taskCompleted w Hdb Huser).
  cbv zeta. change default_retries with (Z.of_nat 3). split.
  - intros k v Hk Hfail Hok.
    rewrite (execute_first_success (answers_from net (length (remote w))) 3 k v
               Hk Hfail Hok).
    cbn [fst snd].
    destruct (replay_schedule
                (UpdateDoc (taskDocPath appId (userId (app w)) taskId)
                           (negb taskCompleted)) (S k) w)
      as (Happ & _ & Hremote & _).
    split; assumption.
  - intros Hfail.
    destruct (execute_all_fail (answers_from net (length (remote w))) 3)
      as [e [_ Hrun]]; [lia|exact Hfail|].
    rewrite Hrun. cbn [fst snd].
    destruct (replay_schedule
                (UpdateDoc (taskDocPath appId (userId (app w)) taskId)
                           (negb taskCompleted)) 3 w)
      as (Happ & _ & Hremote & Htimers).
    unfold setState, console_error; cbn [app remote timers].
    rewrite Happ, Hremote, Htimers. repeat split.
Qed.

(** [deleteTask] past its guard sends the deletion through the retry
    executor.  On a success within the three attempts the component state
    is left as it is: the task stays in the local list until the feed
    delivers a snapshot.  When all three attempts fail the failure is
    reported in [errorMessage] and nothing else of the state changes. *)
Theorem deleteTask_outcome (taskId : string) (w : World) :
  no_db (db (app w)) = false ->
  no_user (userId (app w)) = false ->
  (forall k v,
     k < 3 ->
     (forall j, j < k -> exists e, net (length (remote w) + j) = Thrown e) ->
     net (length (remote w) + k) = Returned v ->
     app (after (deleteTask appId net taskId) w) = app w /\
     remote (after (deleteTask appId net taskId) w) =
       remote w ++
       List.repeat (DeleteDoc (taskDocPath appId (userId (app w)) taskId))
                   (S k))
  /\
  ((forall j, j < 3 -> exists e, net (length (remote w) + j) = Thrown e) ->
   app (after (deleteTask appId net taskId) w) =
     setErrorMessage Session.could_not_delete (app w) /\
   remote (after (deleteTask appId net taskId) w) =
     remote w ++
     List.repeat (DeleteDoc (taskDocPath appId (userId (app w)) taskId)) 3 /\
   timers (after (deleteTask appId net taskId) w) =
     timers w ++ [1000; 2000]%Z).
Proof.
  intros Hdb Huser. unfold after.
  rewrite (deleteTask_sent taskId w Hdb Huser).
  cbv zeta. change default_retries with (Z.of_nat 3). split.
  - intros k v Hk Hfail Hok.
    rewrite (execute_first_success (answers_from net (length (remote w))) 3 k v
               Hk Hfail Hok).
    cbn [fst snd].
    destruct (replay_schedule
                (DeleteDoc (taskDocPath appId (userId (app w)) taskId))
                (S k) w)
      as (Happ & _ & Hremote & _).
    split; assumption.
  - intros Hfail.
    destruct (execute_all_fail (answers_from net (length (remote w))) 3)
      as [e [_ Hrun]]; [lia|exact Hfail|].
    rewrite Hrun. cbn [fst snd].
    destruct (replay_schedule
                (DeleteDoc (taskDocPath appId (userId (app w)) taskId)) 3 w)
      as (Happ & _ & Hremote & Htimers).
    unfold setState, console_error; cbn [app remote timers].
    rewrite Happ, Hremote, Htimers. repeat split.
Qed.
End Requests.

Lemma toggleTaskCompletion_outcome_witness :
  (app (after (toggleTaskCompletion default_appId net_accepts "t1" false)
              boundWorld) = app boundWorld /\
   remote (after (toggleTaskCompletion default_appId net_accepts "t1" false)
                 boundWorld) =
     [UpdateDoc "artifacts/default-app-id/users/u1/tasks/t1" true])
  /\
  (app (after (toggleTaskCompletion default_appId net_down "t1" false)
              boundWorld) =
     setErrorMessage Session.could_not_update (app boundWorld) /\
   remote (after (toggleTaskCompletion default_appId net_down "t1" false)
                 boundWorld) =
     [UpdateDoc "artifacts/default-app-id/users/u1/tasks/t1" true;
      UpdateDoc "artifacts/default-app-id/users/u1/tasks/t1" true;
      UpdateDoc "artifacts/default-app-id/users/u1/tasks/t1" true] /\
   timers (after (toggleTaskCompletion default_appId net_down "t1" false)
                 boundWorld) = [1000; 2000]%Z).
Proof.
  split.
  - apply (proj1 (toggleTaskCompletion_outcome
                    default_appId net_accepts "t1" false boundWorld
                    eq_refl eq_refl) 0 JUndefined).
    + lia.
    + intros j Hj. lia.
    + reflexivity.
  - apply (proj2 (toggleTaskCompletion_outcome
                    default_appId net_down "t1" false boundWorld
                    eq_refl eq_refl)).
    intros j _. eexists. reflexivity.
Defined.

Lemma deleteTask_outcome_witness :
  (app (after (deleteTask default_appId net_accepts "t1") boundWorld) =
     app boundWorld /\
   remote (after (deleteTask default_appId net_accepts "t1") boundWorld) =
     [DeleteDoc "artifacts/default-app-id/users/u1/tasks/t1"])
  /\
  (app (after (deleteTask default_appId net_down "t1") boundWorld) =
     setErrorMessage Session.could_not_delete (app boundWorld) /\
   remote (after (deleteTask default_appId net_down "t1") boundWorld) =
     [DeleteDoc "artifacts/default-app-id/users/u1/tasks/t1";
      DeleteDoc "artifacts/default-app-id/users/u1/tasks/t1";
      DeleteDoc "artifacts/default-app-id/users/u1/tasks/t1"] /\
   timers (after (deleteTask default_appId net_down "t1") boundWorld) =
     [1000; 2000]%Z).
Proof.
  split.
  - apply (proj1 (deleteTask_outcome
                    default_appId net_accepts "t1" boundWorld eq_refl eq_refl)
             0 JUndefined).
    + lia.
    + intros j Hj. lia.
    + reflexivity.
  - apply (proj2 (deleteTask_outcome
                    default_appId net_down "t1" boundWorld eq_refl eq_refl)).
    intros j _. eexists. reflexivity.
Defined.

(** *** The effort of a handler *)

Lemma backoff_first_two (k : nat) :
  k <= 3 ->
  List.map backoff (List.seq 0 (k - 1)) = firstn (k - 1) [1000; 2000]%Z.
Proof.
  intros Hk. destruct k as [|[|[|[|k]]]]; try reflexivity. lia.
Qed.

(** A retried request is sent one to three times, with waits of 1000 and
    then 2000 milliseconds in between. *)
Lemma retried_request_effort
  (net : nat -> outcome js_error jsval) (c : RemoteCall) (w : World) :
  exists k,
    1 <= k <= 3 /\
    snd (execute (answers_from net (length (remote w))) default_retries) =
      schedule k.
Proof.
  change default_retries with (Z.of_nat 3).
  destruct (execute_shape (answers_from net (length (remote w))) 3)
    as (k & Hk & Htrace & _); [lia|].
  now exists k.
Qed.

Ltac close_effort c k w1 :=
  destruct (replay_schedule c k w1) as (_ & _ & Hremote & Htimers);
  exists c, k;
  unfold App.set, App.log, exec, bind, ret; cbn [fst snd];
  unfold setState, console_error; cbn [remote timers];
  rewrite ?Hremote, ?Htimers, backoff_first_two by lia;
  repeat split; first [lia | reflexivity].

Section Effort.
Variable appId : string.
Variable API_URL : string.
Variable net : nat -> outcome js_error jsval.

Lemma addTask_effort (txt : string) (w : World) :
  exists c k,
    k <= 3 /\
    remote (after (addTask appId net txt) w) = remote w ++ List.repeat c k /\
    timers (after (addTask appId net txt) w) =
      timers w ++ firstn (k - 1) [1000; 2000]%Z.
Proof.
  unfold after, addTask.
  destruct (no_db (db (app w)) || no_user (userId (app w)) ||
            (trim txt =? "")).
  - exists (DeleteDoc ""), 0. cbn. rewrite !List.app_nil_r. repeat split. lia.
  - unfold try_catch, bind. rewrite withRetry_request_replay.
    destruct (retried_request_effort net
                (AddDoc (tasksCollectionPath appId (userId (app w)))
                        (trim txt) false) w)
      as (k & Hk & ->).
    destruct (fst (execute _ default_retries));
      close_effort (AddDoc (tasksCollectionPath appId (userId (app w)))
                           (trim txt) false) k w.
Qed.

Lemma toggleTaskCompletion_effort
  (taskId : string) (taskCompleted : bool) (w : World) :
  exists c k,
    k <= 3 /\
    remote (after (toggleTaskCompletion appId net taskId taskCompleted) w) =
      remote w ++ List.repeat c k /\
    timers (after (toggleTaskCompletion appId net taskId taskCompleted) w) =
      timers w ++ firstn (k - 1) [1000; 2000]%Z.
Proof.
  unfold after, toggleTaskCompletion.
  destruct (no_db (db (app w)) || no_user (userId (app w))).
  - exists (DeleteDoc ""), 0. cbn. rewrite !List.app_nil_r. repeat split. lia.
  - unfold try_catch, bind. rewrite withRetry_request_replay.
    destruct (retried_request_effort net
                (UpdateDoc (taskDocPath appId (userId (app w)) taskId)
                           (negb taskCompleted)) w)
      as (k & Hk & ->).
    destruct (fst (execute _ default_retries));
      close_effort (UpdateDoc (taskDocPath appId (userId (app w)) taskId)
                              (negb taskCompleted)) k w.
Qed.

Lemma deleteTask_effort (taskId : string) (w : World) :
  exists c k,
    k <= 3 /\
    remote (after (deleteTask appId net taskId) w) =
      remote w ++ List.repeat c k /\
    timers (after (deleteTask appId net taskId) w) =
      timers w ++ firstn (k - 1) [1000; 2000]%Z.
Proof.
  unfold after, deleteTask.
  destruct (no_db (db (app w)) || no_user (userId (app w))).
  - exists (DeleteDoc ""), 0. cbn. rewrite !List.app_nil_r. repeat split. lia.
  - unfold try_catch, bind. rewrite withRetry_request_replay.
    destruct (retried_request_effort net
                (DeleteDoc (taskDocPath appId (userId (app w)) taskId)) w)
      as (k & Hk & ->).
    destruct (fst (execute _ default_retries));
      close_effort (DeleteDoc (taskDocPath appId (userId (app w)) taskId)) k w.
Qed.

Lemma generateTasksFromPrompt_effort (w : World) :
  exists c k,
    k <= 3 /\
    remote (after (generateTasksFromPrompt API_URL net) w) =
      remote w ++ List.repeat c k /\
    timers (after (generateTasksFromPrompt API_URL net) w) =
      timers w ++ firstn (k - 1) [1000; 2000]%Z.
Proof.
  destruct (String.eqb_spec (trim (aiPrompt (app w))) "") as [Hblank|Hprompt].
  { unfold after, generateTasksFromPrompt, generateTasksFromPromptMemo. rewrite Hblank.
    exists (DeleteDoc ""), 0. cbn. rewrite !List.app_nil_r. repeat split. lia. }
  destruct (isGenerating (app w)) eqn:Hidle.
  { unfold after, generateTasksFromPrompt, generateTasksFromPromptMemo. rewrite Hidle, orb_true_r.
    exists (DeleteDoc ""), 0. cbn. rewrite !List.app_nil_r. repeat split. lia. }
  rewrite (generateTasksFromPrompt_sent API_URL net w Hprompt Hidle). cbv zeta.
  destruct (retried_request_effort net
              (AxiosPost (API_URL ++ "/generate-tasks") (aiPrompt (app w))) w)
    as (k & Hk & ->).
  set (w1 := setState (setAiSuggestions [])
               (setState (setGenerationError JNull)
                  (setState (setIsGenerating true) w))).
  destruct (fst (execute _ default_retries)) as [[resp|]|e];
    [destruct (response_data resp) as [data|e];
       [destruct (truthy data && isArray (get_prop data "tasks"))|]| |];
    close_effort (AxiosPost (API_URL ++ "/generate-tasks") (aiPrompt (app w)))
                 k w1.
Qed.

(** Whatever the remote side does, a handler sends at most three
    requests, all the same, and waits 1000 milliseconds before the second
    and 2000 before the third; it never waits otherwise. *)
Theorem handler_sends_at_most_three_requests (a : action) (w : World) :
  exists c k,
    k <= 3 /\
    remote (run appId API_URL net w a) = remote w ++ List.repeat c k /\
    timers (run appId API_URL net w a) =
      timers w ++ firstn (k - 1) [1000; 2000]%Z.
Proof.
  unfold run.
  destruct a as [|uid|docs|value|txt|taskId taskCompleted|taskId| |value|
                 |taskText| |];
    cbn [perform];
    try (exists (DeleteDoc ""), 0; cbn; rewrite !List.app_nil_r;
         repeat split; lia).
  - apply addTask_effort.
  - apply toggleTaskCompletion_effort.
  - apply deleteTask_effort.
  - apply generateTasksFromPrompt_effort.
  - rewrite addAiSuggestion_after.
    destruct (addTask_effort taskText w) as (c & k & Hk & Hremote & Htimers).
    exists c, k. unfold setState; cbn [remote timers]. repeat split; assumption.
Qed.
End Effort.

(** *** Generation: guard, failure and fresh start *)

(** Whatever the error, the [catch] block of the generation stores a
    truthy value: the error of the server, or the default message. *)
Lemma reported_error_truthy (e : js_error) : truthy (reported_error e) = true.
Proof.
  unfold reported_error, js_or.
  destruct (truthy (opt_prop (opt_prop (response e) "data") "error")) eqn:Ht;
    [exact Ht|reflexivity].
Qed.

Section GenerationMore.
Variable API_URL : string.
Variable net : nat -> outcome js_error jsval.

(** A generation that passes its guard changes two cells only, the
    buffer and the error, and never fills both: the state it leaves is the
    old one with a new buffer and a new error, one of them cleared.  In
    particular [isGenerating] is [false] again and the prompt is kept. *)
Theorem generateTasksFromPrompt_changes_buffer_and_error_only (w : World) :
  trim (aiPrompt (app w)) <> "" ->
  isGenerating (app w) = false ->
  exists suggestions error,
    app (after (generateTasksFromPrompt API_URL net) w) =
      setGenerationError error (setAiSuggestions suggestions (app w)) /\
    (suggestions = [] \/ error = JNull).
Proof.
  intros Hprompt Hidle.
  rewrite (generateTasksFromPrompt_sent API_URL net w Hprompt Hidle). cbv zeta.
  assert (Hstate : forall suggestions error,
    setIsGenerating false
      (setGenerationError error
         (setAiSuggestions suggestions
            (setAiSuggestions []
               (setGenerationError JNull (setIsGenerating true (app w)))))) =
    setGenerationError error (setAiSuggestions suggestions (app w))).
  { intros suggestions error. destruct (app w); cbn in *.
    unfold setGenerationError, setAiSuggestions; cbn. now rewrite Hidle. }
  destruct (fst (execute _ default_retries)) as [[resp|]|e].
  - destruct (response_data resp) as [data|e];
      [destruct (truthy data && isArray (get_prop data "tasks"))|].
    + exists (array_items (get_prop data "tasks")), JNull.
      unfold setState; cbn [app]. rewrite app_replay. cbn [app].
      split; [|now right]. rewrite <- Hstate. reflexivity.
    + exists [], (JStr unexpected_format).
      unfold setState; cbn [app]. rewrite app_replay. cbn [app].
      split; [|now left]. rewrite <- Hstate. reflexivity.
    + exists [], (reported_error e).
      unfold setState, console_error; cbn [app]. rewrite app_replay.
      cbn [app]. split; [|now left]. rewrite <- Hstate. reflexivity.
  - exists [], (reported_error typeError).
    unfold setState, console_error; cbn [app]. rewrite app_replay. cbn [app].
    split; [|now left]. rewrite <- Hstate. reflexivity.
  - exists [], (reported_error e).
    unfold setState, console_error; cbn [app]. rewrite app_replay. cbn [app].
    split; [|now left]. rewrite <- Hstate. reflexivity.
Qed.

(** When all three attempts of the generation fail, the buffer is empty
    and the error stored is the one the [catch] block derives from the
    last failure: the [error] of the response body when it is truthy,
    else the default message; it is truthy in any case, so the dialog
    shows it.  Three requests were sent and [isGenerating] is [false]. *)
Theorem generateTasksFromPrompt_terminal_failure (w : World) (e : js_error) :
  trim (aiPrompt (app w)) <> "" ->
  isGenerating (app w) = false ->
  (forall j, j < 3 -> exists e', net (length (remote w) + j) = Thrown e') ->
  net (length (remote w) + 2) = Thrown e ->
  generationError (app (after (generateTasksFromPrompt API_URL net) w)) =
    js_or (opt_prop (opt_prop (response e) "data") "error")
          (JStr cannot_connect) /\
  truthy (generationError
            (app (after (generateTasksFromPrompt API_URL net) w))) = true /\
  aiSuggestions (app (after (generateTasksFromPrompt API_URL net) w)) = [] /\
  isGenerating (app (after (generateTasksFromPrompt API_URL net) w)) = false /\
  remote (after (generateTasksFromPrompt API_URL net) w) =
    remote w ++
    List.repeat (AxiosPost (API_URL ++ "/generate-tasks") (aiPrompt (app w))) 3.
Proof.
  intros Hprompt Hidle Hfail Hlast.
  rewrite (generateTasksFromPrompt_sent API_URL net w Hprompt Hidle). cbv zeta.
  change default_retries with (Z.of_nat 3).
  destruct (execute_all_fail (answers_from net (length (remote w))) 3)
    as [e' [He' Hrun]]; [lia|exact Hfail|].
  unfold answers_from in He'. cbn [Nat.sub] in He'. rewrite Hlast in He'.
  injection He' as <-. rewrite Hrun. cbn [fst snd].
  destruct (replay_schedule
              (AxiosPost (API_URL ++ "/generate-tasks") (aiPrompt (app w))) 3
              (setState (setAiSuggestions [])
                 (setState (setGenerationError JNull)
                    (setState (setIsGenerating true) w))))
    as (Happ & _ & Hremote & _).
  unfold setState at 1 2 3 4 5 6 7 8 9 10, console_error;
    cbn [app remote generationError aiSuggestions isGenerating
         setIsGenerating setGenerationError].
  rewrite Happ, Hremote.
  repeat split; try reflexivity. apply reported_error_truthy.
Qed.

(** A generation starts afresh: what it leaves does not depend on the
    suggestions and the error that were there before. *)
Theorem generateTasksFromPrompt_discards_previous
  (w : World) (suggestions : list jsval) (error : jsval) :
  trim (aiPrompt (app w)) <> "" ->
  isGenerating (app w) = false ->
  after (generateTasksFromPrompt API_URL net)
        (setState (fun st => setGenerationError error
                               (setAiSuggestions suggestions st)) w) =
  after (generateTasksFromPrompt API_URL net)
        (setState (fun st => setGenerationError JNull (setAiSuggestions [] st))
                  w).
Proof.
  intros Hprompt Hidle.
  rewrite !generateTasksFromPrompt_sent by assumption. reflexivity.
Qed.
End GenerationMore.

Lemma generateTasksFromPrompt_changes_buffer_and_error_only_witness :
  exists suggestions error,
    app (after (generateTasksFromPrompt default_API_URL net_two_tasks)
               Session.promptWorld) =
      setGenerationError error
        (setAiSuggestions suggestions (app Session.promptWorld)) /\
    (suggestions = [] \/ error = JNull).
Proof.
  apply (generateTasksFromPrompt_changes_buffer_and_error_only
           default_API_URL net_two_tasks Session.promptWorld).
  - discriminate.
  - reflexivity.
Defined.

Lemma generateTasksFromPrompt_terminal_failure_witness :
  generationError
    (app (after (generateTasksFromPrompt default_API_URL Session.net_quota)
                Session.promptWorld)) = JStr "Quota exceeded" /\
  generationError
    (app (after (generateTasksFromPrompt default_API_URL net_down)
                Session.promptWorld)) = JStr cannot_connect.
Proof.
  split.
  - apply (generateTasksFromPrompt_terminal_failure
             default_API_URL Session.net_quota Session.promptWorld
             Session.quota_error).
    + discriminate.
    + reflexivity.
    + intros j _. eexists. reflexivity.
    + reflexivity.
  - apply (generateTasksFromPrompt_terminal_failure
             default_API_URL net_down Session.promptWorld
             {| message := "Network Error"; response := JUndefined |}).
    + discriminate.
    + reflexivity.
    + intros j _. eexists. reflexivity.
    + reflexivity.
Defined.

Lemma generateTasksFromPrompt_discards_previous_witness :
  after (generateTasksFromPrompt default_API_URL net_foo_bar)
        (setState (fun st => setGenerationError (JStr cannot_connect)
                               (setAiSuggestions [JStr "Buy milk"] st))
                  Session.promptWorld) =
  after (generateTasksFromPrompt default_API_URL net_foo_bar)
        (setState (fun st => setGenerationError JNull (setAiSuggestions [] st))
                  Session.promptWorld).
Proof.
  apply (generateTasksFromPrompt_discards_previous
           default_API_URL net_foo_bar Session.promptWorld).
  - discriminate.
  - reflexivity.
Defined.

(** *** The text [addTask] stores *)

Lemma trimEnd_idempotent (s : string) : trimEnd (trimEnd s) = trimEnd s.
Proof.
  induction s as [|c s IH]; [reflexivity|].
  cbn [trimEnd]. destruct (trimEnd s) as [|d kept] eqn:Hs.
  - destruct (is_white_space c) eqn:Hc; [reflexivity|].
    cbn [trimEnd]. now rewrite Hc.
  - cbn [trimEnd]. cbn [trimEnd] in IH.
    destruct (trimEnd kept) as [|d' kept'] eqn:Hkept.
    + destruct (is_white_space d); [discriminate|].
      injection IH as <-. reflexivity.
    + now rewrite IH.
Qed.

(** A string that does not start with white space. *)
Lemma trimStart_fixed (s : string) :
  match s with
  | EmptyString => True
  | String c _ => is_white_space c = false
  end ->
  trimStart s = s.
Proof. destruct s as [|c s]; [reflexivity|]. cbn. now intros ->. Qed.

Lemma trimStart_clean (s : string) :
  match trimStart s with
  | EmptyString => True
  | String c _ => is_white_space c = false
  end.
Proof.
  induction s as [|c s IH]; [exact I|].
  cbn [trimStart]. destruct (is_white_space c) eqn:Hc; [exact IH|exact Hc].
Qed.

Lemma trimEnd_clean (s : string) :
  match s with
  | EmptyString => True
  | String c _ => is_white_space c = false
  end ->
  match trimEnd s with
  | EmptyString => True
  | String c _ => is_white_space c = false
  end.
Proof.
  destruct s as [|c s]; [intros _; exact I|].
  intros Hc. cbn [trimEnd]. destruct (trimEnd s); [now rewrite Hc|exact Hc].
Qed.

(** Trimming a trimmed string changes nothing. *)
Lemma trim_idempotent (s : string) : trim (trim s) = trim s.
Proof.
  unfold trim.
  rewrite (trimStart_fixed (trimEnd (trimStart s)))
    by apply trimEnd_clean, trimStart_clean.
  apply trimEnd_idempotent.
Qed.

Section StoredText.
Variable appId : string.
Variable net : nat -> outcome js_error jsval.

(** Every request [addTask] sends creates, in the collection of the bound
    user, an incomplete task whose text is the trimmed input: a text that
    is not empty and that trimming leaves as it is. *)
Theorem addTask_stores_trimmed_text (txt : string) (w : World) (c : RemoteCall) :
  In c (remote (after (addTask appId net txt) w)) ->
  In c (remote w) \/
  (c = AddDoc (tasksCollectionPath appId (userId (app w))) (trim txt) false /\
   trim txt <> "" /\
   trim (trim txt) = trim txt /\
   no_user (userId (app w)) = false).
Proof.
  unfold after, addTask.
  destruct (no_db (db (app w))) eqn:Hdb; [now left|].
  destruct (no_user (userId (app w))) eqn:Huser; [now left|].
  destruct (String.eqb_spec (trim txt) "") as [Hblank|Htext]; [now left|].
  cbn [orb]. unfold try_catch, bind. rewrite withRetry_request_replay.
  destruct (fst (execute _ default_retries));
    unfold App.set, App.log, exec; cbn [fst snd];
    unfold setState, console_error; cbn [remote];
    rewrite remote_replay; intros Hin; apply List.in_app_or in Hin;
    (destruct Hin as [Hold|Hnew]; [now left|right]);
    apply List.repeat_spec in Hnew; subst c;
    (repeat split; [exact Htext|apply trim_idempotent]).
Qed.
End StoredText.

Lemma addTask_stores_trimmed_text_witness :
  In (AddDoc "artifacts/default-app-id/users/u1/tasks" "Buy milk" false) [] \/
  (AddDoc "artifacts/default-app-id/users/u1/tasks" "Buy milk" false =
     AddDoc (tasksCollectionPath default_appId (userId (app boundWorld)))
            (trim "  Buy milk ") false /\
   trim "  Buy milk " <> "" /\
   trim (trim "  Buy milk ") = trim "  Buy milk " /\
   no_user (userId (app boundWorld)) = false).
Proof.
  apply (addTask_stores_trimmed_text
           default_appId net_accepts "  Buy milk " boundWorld).
  vm_compute. left. reflexivity.
Defined.

(** *** Promotion *)

Section Promotion.
Variable appId : string.
Variable net : nat -> outcome js_error jsval.

(** The suggestion is removed from the buffer whether or not a task was
    created: with no principal bound nothing is sent and nothing else
    changes, and when all three attempts of the creation fail the failure
    is reported while the suggestion is gone all the same. *)
Theorem addAiSuggestion_removes_without_creating
  (taskText : string) (w : World) :
  (no_user (userId (app w)) = true ->
   after (addAiSuggestion appId net taskText) w =
     setState
       (setAiSuggestions
          (List.filter (fun t => negb (strict_eq_string t taskText))
                       (aiSuggestions (app w))))
       w)
  /\
  (no_db (db (app w)) = false ->
   no_user (userId (app w)) = false ->
   trim taskText <> "" ->
   (forall j, j < 3 -> exists e, net (length (remote w) + j) = Thrown e) ->
   ~ In (JStr taskText)
        (aiSuggestions (app (after (addAiSuggestion appId net taskText) w))) /\
   errorMessage (app (after (addAiSuggestion appId net taskText) w)) =
     could_not_add).
Proof.
  split.
  - intros Huser. rewrite addAiSuggestion_after.
    unfold after at 1, addTask. now rewrite Huser, orb_true_r.
  - intros Hdb Huser Htext Hfail. rewrite addAiSuggestion_after.
    unfold setState at 1 2;
      cbn [app aiSuggestions errorMessage setAiSuggestions].
    split.
    + intros Hin. apply List.filter_In in Hin as [_ Hkept].
      cbn in Hkept. now rewrite String.eqb_refl in Hkept.
    + unfold after. rewrite (addTask_sent appId net taskText w Hdb Huser Htext).
      cbv zeta. change default_retries with (Z.of_nat 3).
      destruct (execute_all_fail (answers_from net (length (remote w))) 3)
        as [e [_ Hrun]]; [lia|exact Hfail|].
      rewrite Hrun. reflexivity.
Qed.

(** Promotion never lengthens the buffer; it leaves a buffer without the
    text as it is, and shortens one that holds it. *)
Theorem addAiSuggestion_buffer_length (taskText : string) (w : World) :
  length (aiSuggestions (app (after (addAiSuggestion appId net taskText) w))) +
  length (List.filter (fun t => strict_eq_string t taskText)
                      (aiSuggestions (app w))) =
    length (aiSuggestions (app w))
  /\
  (~ In (JStr taskText) (aiSuggestions (app w)) ->
   aiSuggestions (app (after (addAiSuggestion appId net taskText) w)) =
     aiSuggestions (app w))
  /\
  (In (JStr taskText) (aiSuggestions (app w)) ->
   length (aiSuggestions (app (after (addAiSuggestion appId net taskText) w))) <
   length (aiSuggestions (app w))).
Proof.
  rewrite addAiSuggestion_after.
  unfold setState at 1 2 3; cbn [app aiSuggestions setAiSuggestions].
  pose proof (List.filter_length (fun t => strict_eq_string t taskText)
                                 (aiSuggestions (app w))) as Hlen.
  split; [lia|]. split.
  - intros Hnot. apply List.forallb_filter_id.
    apply List.forallb_forall. intros t Ht.
    destruct t as [| | | |u| |]; try reflexivity. cbn.
    destruct (String.eqb_spec u taskText) as [->|Hne]; [contradiction|reflexivity].
  - intros Hin.
    assert (Hpos : 0 < length (List.filter (fun t => strict_eq_string t taskText)
                                           (aiSuggestions (app w)))).
    { assert (Hin' : In (JStr taskText)
                        (List.filter (fun t => strict_eq_string t taskText)
                                     (aiSuggestions (app w)))).
      { apply List.filter_In. split; [exact Hin|]. cbn. apply String.eqb_refl. }
      destruct (List.filter (fun t => strict_eq_string t taskText)
                            (aiSuggestions (app w))); [destruct Hin'|cbn; lia]. }
    lia.
Qed.
End Promotion.

Lemma addAiSuggestion_removes_without_creating_witness :
  after (addAiSuggestion default_appId net_accepts "Buy milk")
        (setState (setAiSuggestions [JStr "Buy milk"; JStr "Call Ann"])
                  initialWorld) =
    setState (setAiSuggestions [JStr "Call Ann"]) initialWorld /\
  (~ In (JStr "Buy milk")
        (aiSuggestions
           (app (after (addAiSuggestion default_appId net_down "Buy milk")
                       (setState
                          (setAiSuggestions [JStr "Buy milk"; JStr "Call Ann"])
                          boundWorld)))) /\
   errorMessage
     (app (after (addAiSuggestion default_appId net_down "Buy milk")
                 (setState
                    (setAiSuggestions [JStr "Buy milk"; JStr "Call Ann"])
                    boundWorld))) = could_not_add).
Proof.
  split.
  - apply (proj1 (addAiSuggestion_removes_without_creating
                    default_appId net_accepts "Buy milk"
                    (setState (setAiSuggestions [JStr "Buy milk"; JStr "Call Ann"])
                              initialWorld))).
    reflexivity.
  - apply (proj2 (addAiSuggestion_removes_without_creating
                    default_appId net_down "Buy milk"
                    (setState (setAiSuggestions [JStr "Buy milk"; JStr "Call Ann"])
                              boundWorld))).
    + reflexivity.
    + reflexivity.
    + discriminate.
    + intros j _. eexists. reflexivity.
Defined.

Lemma addAiSuggestion_buffer_length_witness :
  aiSuggestions
    (app (after (addAiSuggestion default_appId net_accepts "Walk dog")
                (setState (setAiSuggestions [JStr "Buy milk"; JStr "Call Ann"])
                          boundWorld))) =
    [JStr "Buy milk"; JStr "Call Ann"] /\
  length
    (aiSuggestions
       (app (after (addAiSuggestion default_appId net_accepts "Buy milk")
                   (setState (setAiSuggestions [JStr "Buy milk"; JStr "Call Ann"])
                             boundWorld)))) < 2.
Proof.
  split.
  - apply (proj1 (proj2 (addAiSuggestion_buffer_length
                           default_appId net_accepts "Walk dog"
                           (setState
                              (setAiSuggestions [JStr "Buy milk"; JStr "Call Ann"])
                              boundWorld)))).
    cbn. intros [H|[H|[]]]; discriminate.
  - apply (proj2 (proj2 (addAiSuggestion_buffer_length
                           default_appId net_accepts "Buy milk"
                           (setState
                              (setAiSuggestions [JStr "Buy milk"; JStr "Call Ann"])
                              boundWorld)))).
    cbn. left. reflexivity.
Defined.

End HandlerFacts.

(** ** Session, listener and view *)

Module SessionFacts.

Import Js Ordering App Session.
Import Retry RetryFacts AppFacts OrderingFacts HandlerFacts.

(** *** Paths *)

Lemma append_assoc (a b c : string) :
  ((a ++ b) ++ c)%string = (a ++ (b ++ c))%string.
Proof. induction a as [|x a IH]; cbn; [reflexivity|now rewrite IH]. Qed.

Lemma append_inv_head (a b c : string) :
  (a ++ b)%string = (a ++ c)%string -> b = c.
Proof.
  induction a as [|x a IH]; cbn; [trivial|].
  intros H. injection H as H. now apply IH.
Qed.

Lemma length_append (a b : string) :
  String.length (a ++ b)%string = String.length a + String.length b.
Proof. induction a as [|x a IH]; cbn; [reflexivity|now rewrite IH]. Qed.

Lemma append_inv_tail (a b c : string) :
  (a ++ c)%string = (b ++ c)%string -> a = b.
Proof.
  revert b. induction a as [|x a IH]; intros [|y b] H; cbn in H.
  - reflexivity.
  - apply (f_equal String.length) in H. cbn in H.
    rewrite length_append in H. lia.
  - apply (f_equal String.length) in H. cbn in H.
    rewrite length_append in H. lia.
  - injection H as Hx H. subst y. f_equal. now apply IH.
Qed.

Lemma append_slash_inv (a b x y : string) :
  has_slash a = false ->
  has_slash b = false ->
  (a ++ String "/" x)%string = (b ++ String "/" y)%string ->
  a = b /\ x = y.
Proof.
  revert b. induction a as [|c a IH]; intros [|d b] Ha Hb H; cbn in *.
  - injection H as ->. now split.
  - injection H as <- _. cbn in Hb. discriminate.
  - injection H as -> _. cbn in Ha. discriminate.
  - injection H as -> H.
    apply orb_false_iff in Ha as [_ Ha]. apply orb_false_iff in Hb as [_ Hb].
    destruct (IH b Ha Hb H) as [-> ->]. now split.
Qed.

(** What the paths keep apart, under one application identifier.  Two
    bound principals never share a collection.  A principal whose
    identifier is a single path segment, without ["/"], shares no document
    with another such principal: the path of a document fixes both the
    principal and the task identifier.  For one principal, whatever its
    identifier, two task identifiers never share a document.  The paths
    are templates filled in without escaping, so identifiers with ["/"]
    do collide: the task ["b/tasks/c"] of the principal ["a"] and the task
    ["c"] of the principal ["a/tasks/b"] are one document. *)
Theorem paths_separate (appId : string) :
  (forall uid1 uid2,
     tasksCollectionPath appId (Some uid1) =
     tasksCollectionPath appId (Some uid2) ->
     uid1 = uid2)
  /\
  (forall uid1 uid2 taskId1 taskId2,
     has_slash uid1 = false ->
     has_slash uid2 = false ->
     taskDocPath appId (Some uid1) taskId1 =
     taskDocPath appId (Some uid2) taskId2 ->
     uid1 = uid2 /\ taskId1 = taskId2)
  /\
  (forall u taskId1 taskId2,
     taskDocPath appId u taskId1 = taskDocPath appId u taskId2 ->
     taskId1 = taskId2)
  /\
  taskDocPath appId (Some "a") "b/tasks/c" =
  taskDocPath appId (Some "a/tasks/b") "c".
Proof.
  split; [|split; [|split]].
  - intros uid1 uid2 H. unfold tasksCollectionPath, template in H.
    do 3 apply append_inv_head in H.
    now apply append_inv_tail in H.
  - intros uid1 uid2 taskId1 taskId2 H1 H2 H.
    unfold taskDocPath, template in H.
    do 3 apply append_inv_head in H.
    change (uid1 ++ String "/" ("tasks/" ++ taskId1) =
            uid2 ++ String "/" ("tasks/" ++ taskId2))%string in H.
    destruct (append_slash_inv _ _ _ _ H1 H2 H) as [-> Htask].
    split; [reflexivity|]. now apply append_inv_head in Htask.
  - intros u taskId1 taskId2 H. unfold taskDocPath in H.
    now do 5 apply append_inv_head in H.
  - unfold taskDocPath, template. do 3 f_equal.
Qed.

Lemma paths_separate_witness :
  "u1" = "u1" /\ ("u1" = "u1" /\ "t1" = "t1") /\ "t1" = "t1".
Proof.
  split; [|split].
  - apply (proj1 (paths_separate default_appId) "u1" "u1"). reflexivity.
  - apply (proj1 (proj2 (paths_separate default_appId)) "u1" "u1" "t1" "t1");
      reflexivity.
  - apply (proj1 (proj2 (proj2 (paths_separate default_appId)))
             (Some "u1") "t1" "t1").
    reflexivity.
Defined.

Lemma taskDocPath_in_collection
  (appId : string) (u : option string) (taskId : string) :
  taskDocPath appId u taskId =
  (tasksCollectionPath appId u ++ "/" ++ taskId)%string.
Proof.
  unfold taskDocPath, tasksCollectionPath. rewrite !append_assoc. reflexivity.
Qed.

(** The live feed is opened only once the database, the authentication
    and the principal are there.  It is then opened on the collection of
    the principal and the loading screen is drawn; the mutations are
    enabled, [addTask] writes to this collection and the documents that
    [toggleTaskCompletion] and [deleteTask] address lie in it. *)
Theorem listenerEffect_subscription (appId : string) (w : World) :
  (no_db (db (app w)) = false /\ isAuthReady (app w) = true /\
   no_user (userId (app w)) = false ->
   listenerEffect appId w =
     (Some (tasksCollectionPath appId (userId (app w))),
      setState (setLoading true) w) /\
   render (app (snd (listenerEffect appId w))) = LoadingScreen)
  /\
  (no_db (db (app w)) = true \/ isAuthReady (app w) = false \/
   no_user (userId (app w)) = true ->
   listenerEffect appId w = (None, w))
  /\
  (forall p,
     fst (listenerEffect appId w) = Some p ->
     no_db (db (app w)) = false /\
     no_user (userId (app w)) = false /\
     p = tasksCollectionPath appId (userId (app w)) /\
     forall taskId,
       taskDocPath appId (userId (app w)) taskId =
       (p ++ "/" ++ taskId)%string).
Proof.
  unfold listenerEffect. split; [|split].
  - intros (-> & -> & ->). cbn. split; reflexivity.
  - intros [H|[H|H]]; rewrite H, ?orb_true_r; reflexivity.
  - intros p.
    destruct (no_db (db (app w))); [discriminate|].
    destruct (isAuthReady (app w)); [|discriminate].
    destruct (no_user (userId (app w))); [discriminate|].
    cbn [orb negb fst]. intros Hp. injection Hp as <-. repeat split.
    intros taskId. apply taskDocPath_in_collection.
Qed.

Lemma listenerEffect_subscription_witness :
  listenerEffect default_appId
    (setState (setIsAuthReady true) boundWorld) =
    (Some "artifacts/default-app-id/users/u1/tasks",
     setState (setLoading true) (setState (setIsAuthReady true) boundWorld)) /\
  listenerEffect default_appId initialWorld = (None, initialWorld) /\
  taskDocPath default_appId (Some "u1") "t1" =
    "artifacts/default-app-id/users/u1/tasks/t1".
Proof.
  split; [|split].
  - apply (proj1 (listenerEffect_subscription
                    default_appId (setState (setIsAuthReady true) boundWorld))).
    repeat split.
  - apply (proj1 (proj2 (listenerEffect_subscription
                           default_appId initialWorld))).
    left. reflexivity.
  - apply (proj2 (proj2 (listenerEffect_subscription
                           default_appId
                           (setState (setIsAuthReady true) boundWorld)))
             "artifacts/default-app-id/users/u1/tasks" eq_refl).
Defined.

(** *** The view of the task list *)

Lemma completed_after_completed (x : Task) (l : list Task) :
  completed x = true ->
  Forall (precedes x) l ->
  incompleteTasks l = [] /\ completedTasks l = l.
Proof.
  intros Hx. induction 1 as [|y l Hxy _ IH]; [split; reflexivity|].
  apply precedes_spec in Hxy. unfold same_group in Hxy.
  assert (Hy : completed y = true).
  { destruct Hxy as [[H _]|[H _]]; congruence. }
  destruct IH as [IH1 IH2]. unfold incompleteTasks, completedTasks in *.
  cbn [List.filter]. rewrite Hy. cbn [negb]. now rewrite IH1, IH2.
Qed.

(** Drawn as "incomplete, then completed", a list in display order is
    drawn as it is. *)
Lemma displayed_in_order (l : list Task) :
  StronglySorted precedes l -> incompleteTasks l ++ completedTasks l = l.
Proof.
  induction 1 as [|x l _ IH Hall]; [reflexivity|].
  unfold incompleteTasks, completedTasks in *. cbn [List.filter].
  destruct (completed x) eqn:Hx; cbn [negb].
  - destruct (completed_after_completed x l Hx Hall) as [H1 H2].
    unfold incompleteTasks, completedTasks in *. now rewrite H1, H2.
  - cbn. now rewrite IH.
Qed.

(** After a snapshot the component holds the ordered snapshot and no
    longer loads; the view draws these tasks in this very order, the
    incomplete ones under "Tasks" and the completed ones under
    "Completed"; no request is sent. *)
Theorem snapshot_is_drawn_in_order (docs : list Doc) (w : World) :
  tasks (app (after (onSnapshotNext docs) w)) =
    sortTasks (List.map fetchedTask docs) /\
  displayed (app (after (onSnapshotNext docs) w)) =
    sortTasks (List.map fetchedTask docs) /\
  loading (app (after (onSnapshotNext docs) w)) = false /\
  remote (after (onSnapshotNext docs) w) = remote w /\
  (isAuthReady (app w) = true ->
   errorMessage (app w) = "" ->
   exists open,
     render (app (after (onSnapshotNext docs) w)) =
       MainScreen open
                  (completedTasks (sortTasks (List.map fetchedTask docs))) /\
     match open with
     | NoTasks => docs = []
     | AllCompleted =>
         docs <> [] /\
         incompleteTasks (sortTasks (List.map fetchedTask docs)) = []
     | Incomplete items =>
         items = incompleteTasks (sortTasks (List.map fetchedTask docs)) /\
         items <> []
     end).
Proof.
  split; [reflexivity|]. split.
  { unfold displayed.
    change (tasks (app (after (onSnapshotNext docs) w)))
      with (sortTasks (List.map fetchedTask docs)).
    apply displayed_in_order, sortTasks_StronglySorted. }
  split; [reflexivity|]. split; [reflexivity|].
  intros Hready Herror. unfold render.
  change (loading (app (after (onSnapshotNext docs) w))) with false.
  change (isAuthReady (app (after (onSnapshotNext docs) w)))
    with (isAuthReady (app w)).
  change (errorMessage (app (after (onSnapshotNext docs) w)))
    with (errorMessage (app w)).
  change (tasks (app (after (onSnapshotNext docs) w)))
    with (sortTasks (List.map fetchedTask docs)).
  rewrite Hready, Herror. cbn [orb negb String.eqb]. cbv zeta.
  pose proof (displayed_in_order _ (sortTasks_StronglySorted
                                      (List.map fetchedTask docs))) as Hshown.
  pose proof (Permutation_length
                (sortTasks_Permutation (List.map fetchedTask docs))) as Hlen.
  rewrite List.length_map in Hlen.
  destruct (incompleteTasks (sortTasks (List.map fetchedTask docs)))
    as [|t items] eqn:Hinc.
  - destruct (completedTasks (sortTasks (List.map fetchedTask docs)))
      as [|t done] eqn:Hdone.
    + exists NoTasks. split; [reflexivity|].
      cbn in Hshown. rewrite <- Hshown in Hlen.
      destruct docs; [reflexivity|discriminate].
    + exists AllCompleted. split; [reflexivity|]. split; [|reflexivity].
      cbn in Hshown. rewrite <- Hshown in Hlen.
      destruct docs; [discriminate|discriminate].
  - exists (Incomplete (t :: items)). repeat split. discriminate.
Qed.

Lemma snapshot_is_drawn_in_order_witness :
  exists open,
    render (app (after (onSnapshotNext scenario_docs) readyWorld)) =
      MainScreen open
                 (completedTasks (sortTasks (List.map fetchedTask scenario_docs))) /\
    match open with
    | NoTasks => scenario_docs = []
    | AllCompleted =>
        scenario_docs <> [] /\
        incompleteTasks (sortTasks (List.map fetchedTask scenario_docs)) = []
    | Incomplete items =>
        items = incompleteTasks (sortTasks (List.map fetchedTask scenario_docs)) /\
        items <> []
    end.
Proof.
  apply (snapshot_is_drawn_in_order scenario_docs readyWorld); reflexivity.
Defined.

(** *** What a handler does to the task list and to the error message *)

Ltac retried_cases :=
  unfold try_catch, bind; rewrite withRetry_request_replay;
  destruct (fst (execute _ default_retries));
  unfold App.set, App.log, exec, ret; cbn [fst snd];
  unfold setState, console_error; cbn [app];
  rewrite app_replay.

Section Steps.
Variable appId : string.
Variable API_URL : string.
Variable net : nat -> outcome js_error jsval.

(** A handler leaves the task list alone unless it is the listener, and
    it never replaces an error message by the empty one. *)
Lemma run_tasks_and_errorMessage (a : action) (w : World) :
  (tasks (app (run appId API_URL net w a)) = tasks (app w) \/
   exists docs,
     tasks (app (run appId API_URL net w a)) =
       sortTasks (List.map fetchedTask docs)) /\
  (errorMessage (app (run appId API_URL net w a)) = errorMessage (app w) \/
   errorMessage (app (run appId API_URL net w a)) <> "").
Proof.
  unfold run.
  destruct a as [|uid|docs|value|txt|taskId taskCompleted|taskId| |value|
                 |taskText| |];
    cbn [perform];
    try (split; left; reflexivity).
  - split; [right; exists docs; reflexivity|left; reflexivity].
  - unfold after, addTask.
    destruct (no_db (db (app w)) || no_user (userId (app w)) ||
              (trim txt =? "")); [split; left; reflexivity|].
    retried_cases; (split; [left; reflexivity|]);
      [left; reflexivity|right; discriminate].
  - unfold after, toggleTaskCompletion.
    destruct (no_db (db (app w)) || no_user (userId (app w)));
      [split; left; reflexivity|].
    retried_cases; (split; [left; reflexivity|]);
      [left; reflexivity|right; discriminate].
  - unfold after, deleteTask.
    destruct (no_db (db (app w)) || no_user (userId (app w)));
      [split; left; reflexivity|].
    retried_cases; (split; [left; reflexivity|]);
      [left; reflexivity|right; discriminate].
  - destruct (String.eqb_spec (trim (aiPrompt (app w))) "") as [Hblank|Hprompt].
    { unfold after, generateTasksFromPrompt, generateTasksFromPromptMemo. rewrite Hblank.
      split; left; reflexivity. }
    destruct (isGenerating (app w)) eqn:Hidle.
    { unfold after, generateTasksFromPrompt, generateTasksFromPromptMemo. rewrite Hidle, orb_true_r.
      split; left; reflexivity. }
    rewrite (generateTasksFromPrompt_sent API_URL net w Hprompt Hidle).
    cbv zeta.
    destruct (fst (execute _ default_retries)) as [[resp|]|e];
      [destruct (response_data resp) as [data|e];
         [destruct (truthy data && isArray (get_prop data "tasks"))|]| |];
      unfold setState, console_error; cbn [app]; rewrite app_replay;
      split; left; reflexivity.
  - rewrite addAiSuggestion_after. unfold setState; cbn [app].
    unfold after, addTask.
    destruct (no_db (db (app w)) || no_user (userId (app w)) ||
              (trim taskText =? "")); [split; left; reflexivity|].
    retried_cases; (split; [left; reflexivity|]);
      [left; reflexivity|right; discriminate].
Qed.

(** No handler leaves [isGenerating] set: the generation clears it in
    its [finally] block and the other handlers do not write it. *)
Lemma run_keeps_idle (a : action) (w : World) :
  isGenerating (app w) = false ->
  isGenerating (app (run appId API_URL net w a)) = false.
Proof.
  unfold run. intros Hidle.
  destruct a as [|uid|docs|value|txt|taskId taskCompleted|taskId| |value|
                 |taskText| |];
    cbn [perform]; try exact Hidle.
  - unfold after, addTask.
    destruct (no_db (db (app w)) || no_user (userId (app w)) ||
              (trim txt =? "")); [exact Hidle|].
    retried_cases; exact Hidle.
  - unfold after, toggleTaskCompletion.
    destruct (no_db (db (app w)) || no_user (userId (app w)));
      [exact Hidle|].
    retried_cases; exact Hidle.
  - unfold after, deleteTask.
    destruct (no_db (db (app w)) || no_user (userId (app w)));
      [exact Hidle|].
    retried_cases; exact Hidle.
  - destruct (String.eqb_spec (trim (aiPrompt (app w))) "") as [Hblank|Hprompt].
    { unfold after, generateTasksFromPrompt, generateTasksFromPromptMemo.
      rewrite Hblank. exact Hidle. }
    rewrite (generateTasksFromPrompt_sent API_URL net w Hprompt Hidle).
    reflexivity.
  - rewrite addAiSuggestion_after. unfold setState; cbn [app].
    unfold after, addTask.
    destruct (no_db (db (app w)) || no_user (userId (app w)) ||
              (trim taskText =? "")); [exact Hidle|].
    retried_cases; exact Hidle.
Qed.

(** In a reachable world the flag is [false], as it was in every render
    before: the callback the view holds, created when the prompt last
    changed, captured [false], and it is the callback [perform] runs. *)
Lemma reachable_callback_is_current (w : World) :
  reachable appId API_URL net w ->
  isGenerating (app w) = false /\
  generateTasksFromPrompt API_URL net w =
    generateTasksFromPromptMemo API_URL net false w.
Proof.
  intros Hw.
  assert (Hidle : isGenerating (app w) = false).
  { induction Hw as [|w a _ IH]; [reflexivity|now apply run_keeps_idle]. }
  split; [exact Hidle|]. unfold generateTasksFromPrompt. now rewrite Hidle.
Qed.

(** The same for everything that can happen to the component. *)
Lemma step_tasks_and_errorMessage (s : Session) (h : happening) :
  (tasks (app (world (step appId API_URL net s h))) = tasks (app (world s)) \/
   tasks (app (world (step appId API_URL net s h))) = [] \/
   exists docs,
     tasks (app (world (step appId API_URL net s h))) =
       sortTasks (List.map fetchedTask docs)) /\
  (errorMessage (app (world (step appId API_URL net s h))) =
     errorMessage (app (world s)) \/
   errorMessage (app (world (step appId API_URL net s h))) <> "").
Proof.
  destruct h as [a|config initialize listen|token answer user|answer| | |];
    cbn [step].
  - destruct (run_tasks_and_errorMessage a (world s)) as [[Ht|Ht] He];
      (split; [|exact He]); [left; exact Ht|right; right; exact Ht].
  - unfold onWorld, after, initEffect; cbn [world].
    destruct (truthy config); cbn [negb];
      [|split; [left; reflexivity|right; discriminate]].
    destruct initialize as [[]|e];
      [destruct listen as [[]|e]|];
      (split; [left; reflexivity|]);
      first [left; reflexivity|right; discriminate].
  - unfold onAuthStateChangedCallback.
    destruct user as [uid|]; [split; left; reflexivity|].
    destruct (no_token token), answer as [uid|e];
      (split; [left; reflexivity|]);
      first [left; reflexivity|right; discriminate].
  - unfold handleLogout.
    destruct (auth (app (world s))); [|split; left; reflexivity].
    destruct answer as [[]|e].
    + split; [right; left; reflexivity|left; reflexivity].
    + split; [left; reflexivity|right; discriminate].
  - unfold onWorld, listenerEffect; cbn [world].
    destruct (no_db (db (app (world s))) || negb (isAuthReady (app (world s))) ||
              no_user (userId (app (world s)))); split; left; reflexivity.
  - split; [left; reflexivity|right; discriminate].
  - unfold onWorld, submitTask; cbn [world].
    destruct (run_tasks_and_errorMessage
                (AddTask (newTaskText (app (world s)))) (world s))
      as [[Ht|Ht] He];
      (split; [|exact He]); [left; exact Ht|right; right; exact Ht].
Qed.

(** Whatever has happened, the task list the component holds is in
    display order, so that the view, which draws the incomplete tasks
    and then the completed ones, draws the list as it is held. *)
Theorem held_tasks_are_in_display_order (s : Session) :
  attainable appId API_URL net s ->
  StronglySorted precedes (tasks (app (world s))) /\
  displayed (app (world s)) = tasks (app (world s)).
Proof.
  intros Hs.
  assert (Hsorted : StronglySorted precedes (tasks (app (world s)))).
  { induction Hs as [|s h _ IH]; [constructor|].
    destruct (step_tasks_and_errorMessage s h) as [[Ht|[Ht|[docs Ht]]] _];
      rewrite Ht; [exact IH|constructor|apply sortTasks_StronglySorted]. }
  split; [exact Hsorted|]. now apply displayed_in_order.
Qed.

(** An error message is never cleared: once one is set, whatever happens
    next leaves one set, and the main screen is not drawn again. *)
Theorem error_message_is_never_cleared (s : Session) (hs : list happening) :
  errorMessage (app (world s)) <> "" ->
  errorMessage
    (app (world (fold_left (step appId API_URL net) hs s))) <> "" /\
  forall open done,
    render (app (world (fold_left (step appId API_URL net) hs s))) <>
    MainScreen open done.
Proof.
  intros Hset.
  assert (Hkept : errorMessage
                    (app (world (fold_left (step appId API_URL net) hs s)))
                  <> "").
  { revert s Hset. induction hs as [|h hs IH]; intros s Hset; [exact Hset|].
    cbn [fold_left]. apply IH.
    destruct (step_tasks_and_errorMessage s h) as [_ [He|He]];
      [now rewrite He|exact He]. }
  split; [exact Hkept|].
  intros open done. unfold render.
  destruct (loading _ || negb (isAuthReady _)); [discriminate|].
  apply String.eqb_neq in Hkept. rewrite Hkept. discriminate.
Qed.
End Steps.

Lemma held_tasks_are_in_display_order_witness :
  StronglySorted precedes
    (tasks (app (world (step default_appId default_API_URL net_accepts
                             initialSession
                             (Handler (Snapshot scenario_docs)))))) /\
  displayed
    (app (world (step default_appId default_API_URL net_accepts
                      initialSession (Handler (Snapshot scenario_docs))))) =
  tasks
    (app (world (step default_appId default_API_URL net_accepts
                      initialSession (Handler (Snapshot scenario_docs))))).
Proof.
  apply (held_tasks_are_in_display_order
           default_appId default_API_URL net_accepts).
  apply attainable_step. apply attainable_initial.
Defined.

Lemma error_message_is_never_cleared_witness :
  errorMessage
    (app (world (fold_left (step default_appId default_API_URL net_accepts)
                           [Handler (AddTask "Buy milk");
                            Handler (Snapshot scenario_docs)]
                           (onWorld (after (addTask default_appId net_down
                                                    "Buy milk"))
                                    {| world := readyWorld; authCalls := [] |}))))
    <> "" /\
  forall open done,
    render
      (app (world (fold_left (step default_appId default_API_URL net_accepts)
                             [Handler (AddTask "Buy milk");
                              Handler (Snapshot scenario_docs)]
                             (onWorld (after (addTask default_appId net_down
                                                      "Buy milk"))
                                      {| world := readyWorld;
                                         authCalls := [] |})))) <>
    MainScreen open done.
Proof.
  apply (error_message_is_never_cleared
           default_appId default_API_URL net_accepts).
  vm_compute. discriminate.
Defined.

(** *** Session binding *)

(** Without the database handle the three mutations do nothing, even
    with a principal bound. *)
Theorem mutations_need_database
  (appId : string) (net : nat -> outcome js_error jsval) (w : World) :
  no_db (db (app w)) = true ->
  forall txt taskId taskCompleted,
    addTask appId net txt w = (Returned tt, w) /\
    toggleTaskCompletion appId net taskId taskCompleted w = (Returned tt, w) /\
    deleteTask appId net taskId w = (Returned tt, w).
Proof.
  intros Hdb txt taskId taskCompleted.
  unfold addTask, toggleTaskCompletion, deleteTask. rewrite Hdb.
  repeat split.
Qed.

Lemma mutations_need_database_witness :
  addTask default_appId net_accepts "Buy milk"
          (setState (setDb None) boundWorld) =
    (Returned tt, setState (setDb None) boundWorld) /\
  toggleTaskCompletion default_appId net_accepts "t1" false
                       (setState (setDb None) boundWorld) =
    (Returned tt, setState (setDb None) boundWorld) /\
  deleteTask default_appId net_accepts "t1" (setState (setDb None) boundWorld) =
    (Returned tt, setState (setDb None) boundWorld).
Proof.
  apply (mutations_need_database
           default_appId net_accepts (setState (setDb None) boundWorld)).
  reflexivity.
Defined.

(** The first effect, started without a database handle and without an
    error.  It provides the database handle exactly when the
    configuration is there and the initialisation succeeds; it reports
    an error exactly when the configuration is missing, the
    initialisation fails or the listener cannot be registered, and then
    it also stops the loading screen; it never binds a principal. *)
Theorem initEffect_outcome
  (firebaseConfig : jsval) (initialize listen : outcome js_error unit)
  (w : World) :
  db (app w) = None ->
  errorMessage (app w) = "" ->
  (no_db (db (app (after (initEffect firebaseConfig initialize listen) w))) =
     false <->
   truthy firebaseConfig = true /\ initialize = Returned tt)
  /\
  (errorMessage (app (after (initEffect firebaseConfig initialize listen) w))
     <> "" <->
   truthy firebaseConfig = false \/ (exists e, initialize = Thrown e) \/
   (exists e, listen = Thrown e))
  /\
  (errorMessage (app (after (initEffect firebaseConfig initialize listen) w))
     <> "" ->
   loading (app (after (initEffect firebaseConfig initialize listen) w)) =
     false)
  /\
  userId (app (after (initEffect firebaseConfig initialize listen) w)) =
    userId (app w) /\
  remote (after (initEffect firebaseConfig initialize listen) w) = remote w.
Proof.
  intros Hdb Herr. unfold after, initEffect.
  destruct (truthy firebaseConfig); cbn [negb].
  - destruct initialize as [[]|e]; [destruct listen as [[]|e]|];
      unfold try_catch, bind, App.set, exec; cbn [fst snd];
      unfold setState; cbn; rewrite ?Hdb, ?Herr; cbn;
      repeat split; try tauto; try discriminate; try congruence;
      try (intros _; right; eauto; fail);
      try (intros [H|[[e' H]|[e' H]]]; discriminate);
      try (intros [_ H]; discriminate);
      try (intros _; right; left; eauto);
      try (intros _; right; right; eauto).
  - unfold bind, App.set, exec; cbn [fst snd]. unfold setState; cbn.
    rewrite ?Hdb; cbn.
    repeat split; try tauto; try discriminate; try congruence.
    intros [H _]; discriminate.
Qed.

Lemma initEffect_outcome_witness :
  (no_db (db (app (after (initEffect JNull (Returned tt) (Returned tt))
                         initialWorld))) = false <->
   truthy JNull = true /\ Returned tt = @Returned js_error unit tt)
  /\
  (errorMessage (app (after (initEffect JNull (Returned tt) (Returned tt))
                            initialWorld)) <> "" <->
   truthy JNull = false \/
   (exists e, @Returned js_error unit tt = Thrown e) \/
   (exists e, @Returned js_error unit tt = Thrown e))
  /\
  (errorMessage (app (after (initEffect JNull (Returned tt) (Returned tt))
                            initialWorld)) <> "" ->
   loading (app (after (initEffect JNull (Returned tt) (Returned tt))
                       initialWorld)) = false)
  /\
  userId (app (after (initEffect JNull (Returned tt) (Returned tt))
                     initialWorld)) = userId (app initialWorld) /\
  remote (after (initEffect JNull (Returned tt) (Returned tt)) initialWorld) =
    remote initialWorld.
Proof.
  apply (initEffect_outcome JNull (Returned tt) (Returned tt) initialWorld);
    reflexivity.
Defined.

(** The callback of the authentication listener always ends with the
    authentication ready.  With a user it binds this user and calls
    nothing.  Without one it makes exactly one sign-in call, with the
    custom token when there is a non-empty one and anonymously otherwise,
    and stops the loading screen: on success the principal is the one of
    the credentials, on failure the principal is left as it was and the
    failure is reported. *)
Theorem onAuthStateChanged_outcome
  (initialAuthToken : option string) (answer : outcome js_error string)
  (user : option string) (s : Session) :
  isAuthReady
    (app (world (snd (onAuthStateChangedCallback
                        initialAuthToken answer user s)))) = true
  /\
  (forall uid,
     user = Some uid ->
     snd (onAuthStateChangedCallback initialAuthToken answer user s) =
       onWorld (setState (fun st => setIsAuthReady true
                                      (setUserId (Some uid) st))) s)
  /\
  (user = None ->
   authCalls (snd (onAuthStateChangedCallback initialAuthToken answer user s)) =
     authCalls s ++
     [if no_token initialAuthToken then SignInAnonymously
      else SignInWithCustomToken (template initialAuthToken)] /\
   loading
     (app (world (snd (onAuthStateChangedCallback
                         initialAuthToken answer user s)))) = false /\
   (forall uid,
      answer = Returned uid ->
      userId
        (app (world (snd (onAuthStateChangedCallback
                            initialAuthToken answer user s)))) = Some uid /\
      errorMessage
        (app (world (snd (onAuthStateChangedCallback
                            initialAuthToken answer user s)))) =
        errorMessage (app (world s))) /\
   (forall e,
      answer = Thrown e ->
      userId
        (app (world (snd (onAuthStateChangedCallback
                            initialAuthToken answer user s)))) =
        userId (app (world s)) /\
      errorMessage
        (app (world (snd (onAuthStateChangedCallback
                            initialAuthToken answer user s)))) =
        sign_in_failed)).
Proof.
  unfold onAuthStateChangedCallback. split; [|split].
  - destruct user as [uid|]; [reflexivity|].
    destruct (no_token initialAuthToken), answer; reflexivity.
  - intros uid ->. reflexivity.
  - intros ->.
    destruct (no_token initialAuthToken), answer as [uid|e]; cbn;
      (split; [reflexivity|]); (split; [reflexivity|]);
      split; intros x Hx; try discriminate;
      injection Hx as <-; split; reflexivity.
Qed.

Lemma onAuthStateChanged_outcome_witness :
  snd (onAuthStateChangedCallback None (Returned "anon") (Some "u1")
                                  initialSession) =
    onWorld (setState (fun st => setIsAuthReady true
                                   (setUserId (Some "u1") st)))
            initialSession /\
  authCalls (snd (onAuthStateChangedCallback (Some "tok") (Returned "u2") None
                                             initialSession)) =
    [SignInWithCustomToken "tok"] /\
  userId (app (world (snd (onAuthStateChangedCallback
                             (Some "tok") (Returned "u2") None
                             initialSession)))) = Some "u2".
Proof.
  split; [|split].
  - apply (proj1 (proj2 (onAuthStateChanged_outcome
                           None (Returned "anon") (Some "u1") initialSession))).
    reflexivity.
  - apply (proj2 (proj2 (onAuthStateChanged_outcome
                           (Some "tok") (Returned "u2") None initialSession))).
    reflexivity.
  - apply (proj2 (proj2 (onAuthStateChanged_outcome
                           (Some "tok") (Returned "u2") None initialSession))
             eq_refl).
    reflexivity.
Defined.

(** *** Logging out *)

Section Logout.
Variable appId : string.
Variable net : nat -> outcome js_error jsval.

(** [handleLogout] does nothing without the authentication handle.  With
    it, one [signOut] is called.  On success the principal is unbound, the
    task list is emptied and the loading screen is drawn; from then on
    the three mutations do nothing and the live feed is not opened.  On
    failure the failure is reported and the principal and the tasks are
    kept. *)
Theorem handleLogout_outcome (answer : outcome js_error unit) (s : Session) :
  (auth (app (world s)) = None -> handleLogout answer s = (Returned tt, s))
  /\
  (auth (app (world s)) <> None ->
   answer = Returned tt ->
   snd (handleLogout answer s) =
     {| world := setState (fun st => setLoading true
                                       (setTasks [] (setUserId None st)))
                          (world s);
        authCalls := authCalls s ++ [SignOut] |} /\
   render (app (world (snd (handleLogout answer s)))) = LoadingScreen /\
   fst (listenerEffect appId (world (snd (handleLogout answer s)))) = None /\
   forall txt taskId taskCompleted,
     after (addTask appId net txt) (world (snd (handleLogout answer s))) =
       world (snd (handleLogout answer s)) /\
     after (toggleTaskCompletion appId net taskId taskCompleted)
           (world (snd (handleLogout answer s))) =
       world (snd (handleLogout answer s)) /\
     after (deleteTask appId net taskId) (world (snd (handleLogout answer s))) =
       world (snd (handleLogout answer s)))
  /\
  (auth (app (world s)) <> None ->
   forall e,
     answer = Thrown e ->
     snd (handleLogout answer s) =
       {| world := setState (setErrorMessage logout_failed)
                            (console_error "Logout Error:" (world s));
          authCalls := authCalls s ++ [SignOut] |}).
Proof.
  unfold handleLogout. split; [|split].
  - intros ->. reflexivity.
  - intros Hauth ->. destruct (auth (app (world s))); [|contradiction].
    split; [reflexivity|]. split; [reflexivity|]. split.
    + unfold listenerEffect; cbn. now rewrite !orb_true_r.
    + intros txt taskId taskCompleted.
      unfold after, addTask, toggleTaskCompletion, deleteTask; cbn.
      rewrite !orb_true_r. cbn. repeat split.
  - intros Hauth e ->. destruct (auth (app (world s))); [|contradiction].
    reflexivity.
Qed.

(** After a logout, the sign-in the authentication listener starts for
    the missing user gives a fresh session: the new principal is bound,
    the task list is empty and nothing is loading. *)
Theorem logout_then_sign_in
  (initialAuthToken : option string) (uid : string) (s : Session) :
  auth (app (world s)) <> None ->
  userId
    (app (world (snd (onAuthStateChangedCallback
                        initialAuthToken (Returned uid) None
                        (snd (handleLogout (Returned tt) s)))))) = Some uid /\
  tasks
    (app (world (snd (onAuthStateChangedCallback
                        initialAuthToken (Returned uid) None
                        (snd (handleLogout (Returned tt) s)))))) = [] /\
  loading
    (app (world (snd (onAuthStateChangedCallback
                        initialAuthToken (Returned uid) None
                        (snd (handleLogout (Returned tt) s)))))) = false /\
  isAuthReady
    (app (world (snd (onAuthStateChangedCallback
                        initialAuthToken (Returned uid) None
                        (snd (handleLogout (Returned tt) s)))))) = true /\
  (errorMessage (app (world s)) = "" ->
   render
     (app (world (snd (onAuthStateChangedCallback
                         initialAuthToken (Returned uid) None
                         (snd (handleLogout (Returned tt) s)))))) =
     MainScreen NoTasks []).
Proof.
  intros Hauth. unfold handleLogout.
  destruct (auth (app (world s))); [|contradiction].
  unfold onAuthStateChangedCallback.
  destruct (no_token initialAuthToken); cbn;
    repeat split; intros ->; reflexivity.
Qed.
End Logout.

Lemma handleLogout_outcome_witness :
  handleLogout (Returned tt) initialSession = (Returned tt, initialSession) /\
  (snd (handleLogout (Returned tt) readySession) =
     {| world := setState (fun st => setLoading true
                                       (setTasks [] (setUserId None st)))
                          readyWorld;
        authCalls := [SignOut] |} /\
   render (app (world (snd (handleLogout (Returned tt) readySession)))) =
     LoadingScreen) /\
  snd (handleLogout (Thrown quota_error) readySession) =
    {| world := setState (setErrorMessage logout_failed)
                         (console_error "Logout Error:" readyWorld);
       authCalls := [SignOut] |}.
Proof.
  split; [|split].
  - apply (proj1 (handleLogout_outcome default_appId net_accepts
                    (Returned tt) initialSession)).
    reflexivity.
  - destruct (proj1 (proj2 (handleLogout_outcome default_appId net_accepts
                              (Returned tt) readySession))
                ltac:(discriminate) eq_refl) as (Hout & Hscreen & _).
    split; [exact Hout|exact Hscreen].
  - apply (proj2 (proj2 (handleLogout_outcome default_appId net_accepts
                           (Thrown quota_error) readySession))
             ltac:(discriminate) quota_error eq_refl).
Defined.

Lemma logout_then_sign_in_witness :
  userId
    (app (world (snd (onAuthStateChangedCallback
                        None (Returned "anon2") None
                        (snd (handleLogout (Returned tt) readySession)))))) =
    Some "anon2" /\
  render
    (app (world (snd (onAuthStateChangedCallback
                        None (Returned "anon2") None
                        (snd (handleLogout (Returned tt) readySession)))))) =
    MainScreen NoTasks [].
Proof.
  destruct (logout_then_sign_in None "anon2" readySession ltac:(discriminate))
    as (Huser & _ & _ & _ & Hscreen).
  split; [exact Huser|]. apply Hscreen. reflexivity.
Defined.

(** *** The comparator *)

Lemma compareTasks_consistent_witness :
  (compareTasks task_c task_b <= 0)%Z.
Proof.
  apply (proj2 (proj2 (proj2 compareTasks_consistent)) task_c task_a task_b).
  - vm_compute. discriminate.
  - vm_compute. discriminate.
Defined.

(** *** The dialog *)

(** The guard of the generation handler and the button "Generate Tasks"
    are two tests.  The handler is memoised on the prompt: it is stopped by
    a blank prompt, which disables the button as well, and by the
    [isGenerating] flag of the render in which the prompt last changed,
    not by the present flag.  With a prompt that is not blank and a
    captured flag [false] it sends the prompt, as it was typed, one to
    three times, whatever the present flag: while a generation is in
    flight the disabled button alone stands in the way of a second one.
    An enabled button means a prompt that is not blank and no generation
    in flight; opening the dialog disables the button until a prompt is
    typed. *)
Theorem generate_guard_reads_captured_flag
  (API_URL : string) (net : nat -> outcome js_error jsval)
  (isGeneratingThen : bool) (w : World) :
  (trim (aiPrompt (app w)) = "" ->
   generateDisabled (app w) = true /\
   generateTasksFromPromptMemo API_URL net isGeneratingThen w =
     (Returned tt, w))
  /\
  (isGeneratingThen = true ->
   generateTasksFromPromptMemo API_URL net isGeneratingThen w =
     (Returned tt, w))
  /\
  (trim (aiPrompt (app w)) <> "" ->
   isGeneratingThen = false ->
   exists k,
     1 <= k <= 3 /\
     remote (after (generateTasksFromPromptMemo API_URL net isGeneratingThen)
                   w) =
       remote w ++
       List.repeat (AxiosPost (API_URL ++ "/generate-tasks") (aiPrompt (app w)))
                   k)
  /\
  (generateDisabled (app w) = false ->
   trim (aiPrompt (app w)) <> "" /\ isGenerating (app w) = false)
  /\
  generateDisabled (app (after openAiModal w)) = true.
Proof.
  unfold generateDisabled. split; [|split; [|split; [|split]]].
  - intros Hblank. split.
    + rewrite Hblank. apply orb_true_r.
    + apply generateTasksFromPromptMemo_guard. now left.
  - intros Hthen. apply generateTasksFromPromptMemo_guard. now right.
  - intros Hprompt ->.
    rewrite (generateTasksFromPromptMemo_sent API_URL net w Hprompt).
    cbv zeta.
    destruct (retried_request_effort net
                (AxiosPost (API_URL ++ "/generate-tasks") (aiPrompt (app w))) w)
      as (k & Hk & ->).
    exists k. split; [exact Hk|].
    set (w1 := setState (setAiSuggestions [])
                 (setState (setGenerationError JNull)
                    (setState (setIsGenerating true) w))).
    destruct (replay_schedule
                (AxiosPost (API_URL ++ "/generate-tasks") (aiPrompt (app w)))
                k w1) as (_ & _ & Hremote & _).
    destruct (fst (execute _ default_retries)) as [[resp|]|e];
      [destruct (response_data resp) as [data|e];
         [destruct (truthy data && isArray (get_prop data "tasks"))|]| |];
      unfold setState at 1 2, console_error; cbn [remote];
      rewrite Hremote; reflexivity.
  - intros Hon. apply orb_false_iff in Hon as [Hidle Hprompt].
    apply String.eqb_neq in Hprompt. now split.
  - cbn. apply orb_true_r.
Qed.

(** At a blank prompt; and with a generation in flight, where the button
    is disabled and the handler created before it started still sends the
    prompt. *)
Lemma generate_guard_reads_captured_flag_witness :
  (generateDisabled (app boundWorld) = true /\
   generateTasksFromPromptMemo default_API_URL net_two_tasks false boundWorld =
     (Returned tt, boundWorld)) /\
  generateDisabled (app (setState (setIsGenerating true) promptWorld)) = true /\
  exists k,
    1 <= k <= 3 /\
    remote (after (generateTasksFromPromptMemo default_API_URL net_two_tasks
                     false)
                  (setState (setIsGenerating true) promptWorld)) =
      remote (setState (setIsGenerating true) promptWorld) ++
      List.repeat (AxiosPost (default_API_URL ++ "/generate-tasks")
                             (aiPrompt
                                (app (setState (setIsGenerating true)
                                               promptWorld))))
                  k.
Proof.
  split; [|split].
  - apply (proj1 (generate_guard_reads_captured_flag
                    default_API_URL net_two_tasks false boundWorld)).
    reflexivity.
  - reflexivity.
  - apply (proj1 (proj2 (proj2 (generate_guard_reads_captured_flag
                                  default_API_URL net_two_tasks false
                                  (setState (setIsGenerating true)
                                            promptWorld))))).
    + vm_compute. discriminate.
    + reflexivity.
Defined.

End SessionFacts.
